(** * huse: the JSON serializer and the deserializer node protocol

    A shallow embedding of [code/huse/JsonSerializer.cpp] and
    [code/huse/Deserializer.hpp].

    - The output stream [m_out] is the text written so far.
    - A member function is a state transformer that either returns, throws
      a C++ exception, or fails an [assert] (assertions are enabled, as in
      a debug build).
    - What the C++ implementation leaves to the platform (signedness of
      [char], [sizeof(long)], the text [operator<<] gives a floating-point
      number) is a field of [Platform]. *)

From Stdlib Require Import ZArith Lia List Bool Ascii String.
From Stdlib Require Import SpecFloat DecimalString DecimalPos DecimalZ.
Import ListNotations.

Local Open Scope string_scope.
Local Open Scope Z_scope.

(** ** Outcomes of a call *)

Inductive outcome (A : Type) : Type :=
| Returned (a : A)          (* normal return *)
| Thrown (msg : string)     (* an exception: a data error with its message *)
| AssertFailed.             (* a failed assert: a programming error *)

Arguments Returned {A} a.
Arguments Thrown {A} msg.
Arguments AssertFailed {A}.

(** A member function of an object of type [St] that returns an [A]. *)
Definition M (St A : Type) : Type := St -> outcome (A * St).

Definition ret {St A} (a : A) : M St A := fun s => Returned (a, s).

Definition bind {St A B} (c : M St A) (k : A -> M St B) : M St B :=
  fun s =>
    match c s with
    | Returned (a, s') => k a s'
    | Thrown msg => Thrown msg
    | AssertFailed => AssertFailed
    end.

Definition assert {St} (b : bool) : M St unit :=
  fun s => if b then Returned (tt, s) else AssertFailed.

Declare Scope cpp_scope.
Delimit Scope cpp_scope with cpp.
Notation "x <- c ;; k" := (bind c (fun x => k))
  (at level 61, c at next level, right associativity) : cpp_scope.
Notation "c ;; k" := (bind c (fun _ => k))
  (at level 61, right associativity) : cpp_scope.
Local Open Scope cpp_scope.

(** ** Platform *)

(** The integer types [JsonSerializer::write] is overloaded for. *)
Inductive IntType : Type :=
| Short | UShort | Int | UInt | Long | ULong | LongLong | ULongLong.

Class Platform : Type := {
  (** whether plain [char] is a signed type *)
  char_is_signed : bool;
  (** [sizeof(long)]: 4 on Windows, 8 on LP64 systems *)
  sizeof_long : Z;
  (** the characters [std::ostream::operator<<] writes for a [float] and
      for a [double] (stream in its default formatting state) *)
  ostream_float : spec_float -> string;
  ostream_double : spec_float -> string
}.

Definition is_signed (T : IntType) : bool :=
  match T with
  | Short | Int | Long | LongLong => true
  | UShort | UInt | ULong | ULongLong => false
  end.

Definition sizeof `{Platform} (T : IntType) : Z :=
  match T with
  | Short | UShort => 2
  | Int | UInt => 4
  | Long | ULong => sizeof_long
  | LongLong | ULongLong => 8
  end.

(** The values of an integer type. *)
Definition int_min `{Platform} (T : IntType) : Z :=
  if is_signed T then - 2 ^ (8 * sizeof T - 1) else 0.

Definition int_max `{Platform} (T : IntType) : Z :=
  if is_signed T then 2 ^ (8 * sizeof T - 1) - 1 else 2 ^ (8 * sizeof T) - 1.

Definition in_range `{Platform} (T : IntType) (v : Z) : Prop :=
  int_min T <= v <= int_max T.

(** [std::isfinite]. *)
Definition isfinite (f : spec_float) : bool :=
  match f with
  | S754_zero _ | S754_finite _ _ _ => true
  | S754_infinity _ | S754_nan => false
  end.

(** ** Characters *)

Definition chr (n : nat) : ascii := ascii_of_nat n.

Definition dquote : ascii := chr 34.
Definition backslash : ascii := chr 92.
Definition LF : ascii := chr 10.
Definition CR : ascii := chr 13.
Definition BS : ascii := chr 8.
Definition TAB : ascii := chr 9.
Definition FF : ascii := chr 12.

Definition str1 (c : ascii) : string := String c EmptyString.

(** The value of a [char] holding the byte [c]. *)
Definition char_value `{Platform} (c : ascii) : Z :=
  let n := Z.of_N (N_of_ascii c) in
  if char_is_signed && (128 <=? n) then n - 256 else n.

(** ** What [operator<<] writes *)

Inductive streamable : Type :=
| SView (s : string)         (* std::string_view, const char* *)
| SChar (c : ascii)          (* char: the character itself, whatever the base *)
| SInteger (z : Z)           (* any integer type *)
| SFloat (f : spec_float)
| SDouble (f : spec_float).

(** Decimal text of an integer, a leading [-] when negative. *)
Definition decimal (z : Z) : string := NilZero.string_of_int (Z.to_int z).

Definition ostream_insert `{Platform} (v : streamable) : string :=
  match v with
  | SView s => s
  | SChar c => str1 c
  | SInteger z => decimal z
  | SFloat f => ostream_float f
  | SDouble f => ostream_double f
  end.

(** ** JsonSerializer *)

Record JsonSerializer : Type := mkJsonSerializer {
  m_out : string;
  m_pretty : bool;
  m_hasValue : bool;
  m_arrayJustOpen : bool;
  m_depth : Z                (* uint32_t *)
}.

Definition uint32 (z : Z) : Z := z mod 2 ^ 32.

Definition set_out (o : string) (s : JsonSerializer) : JsonSerializer :=
  mkJsonSerializer o (m_pretty s) (m_hasValue s) (m_arrayJustOpen s) (m_depth s).
Definition set_hasValue (b : bool) (s : JsonSerializer) : JsonSerializer :=
  mkJsonSerializer (m_out s) (m_pretty s) b (m_arrayJustOpen s) (m_depth s).
Definition set_arrayJustOpen (b : bool) (s : JsonSerializer) : JsonSerializer :=
  mkJsonSerializer (m_out s) (m_pretty s) (m_hasValue s) b (m_depth s).
Definition set_depth (d : Z) (s : JsonSerializer) : JsonSerializer :=
  mkJsonSerializer (m_out s) (m_pretty s) (m_hasValue s) (m_arrayJustOpen s) d.

Definition modify (f : JsonSerializer -> JsonSerializer) : M JsonSerializer unit :=
  fun s => Returned (tt, f s).

(** [m_out << v] and [m_out.put(c)]. *)
Definition out `{Platform} (v : streamable) : M JsonSerializer unit :=
  modify (fun s => set_out (m_out s ++ ostream_insert v) s).

(** The constructor; the members it does not mention start as [false] and
    [0]. *)
Definition JsonSerializer_new (o : string) (pretty : bool) : JsonSerializer :=
  mkJsonSerializer o pretty false false 0.

(** The destructor. *)
Definition JsonSerializer_delete : M JsonSerializer unit :=
  fun s => assert (m_depth s =? 0) s.

(** The body of [throwException] is empty: the call returns. *)
Definition throwException (text : string) : M JsonSerializer unit :=
  ret tt.

Fixpoint indent_loop `{Platform} (n : nat) : M JsonSerializer unit :=
  match n with
  | O => ret tt
  | S n' => out (SView "  ") ;; indent_loop n'
  end.

Definition newLine `{Platform} : M JsonSerializer unit :=
  fun s =>
    if negb (m_pretty s) then ret tt s
    else (out (SChar LF) ;; indent_loop (Z.to_nat (m_depth s))) s.

Definition prepareWriteVal `{Platform} : M JsonSerializer unit :=
  fun s =>
    ((if m_hasValue s then out (SChar ",") ;; newLine
      else if m_arrayJustOpen s then newLine ;; modify (set_arrayJustOpen false)
      else ret tt) ;;
     modify (set_hasValue true)) s.

Definition writeSimpleValue `{Platform} (val : streamable) : M JsonSerializer unit :=
  prepareWriteVal ;; out val.

Definition write_bool `{Platform} (val : bool) : M JsonSerializer unit :=
  writeSimpleValue (SView (if val then "true" else "false")).

Definition MAX_D : Z := 9007199254740992.
Definition MIN_D : Z := -9007199254740992.

Definition writePotentiallyBigIntegerValue `{Platform} (T : IntType) (val : Z)
  : M JsonSerializer unit :=
  if sizeof T <=? 4 then writeSimpleValue (SInteger val)
  else if is_signed T then
    if (MIN_D <=? val) && (val <=? MAX_D) then writeSimpleValue (SInteger val)
    else throwException "integer too big"
  else
    if val <=? MAX_D then writeSimpleValue (SInteger val)
    else throwException "integer too big".

(** The overloads of [write] for the integer types. *)
Definition write_int `{Platform} (T : IntType) (val : Z) : M JsonSerializer unit :=
  match T with
  | Short | UShort | Int | UInt => writeSimpleValue (SInteger val)
  | Long | ULong | LongLong | ULongLong => writePotentiallyBigIntegerValue T val
  end.

Definition writeFloatValue `{Platform} (val : spec_float) (v : streamable)
  : M JsonSerializer unit :=
  if isfinite val then writeSimpleValue v
  else throwException "float not finite".

Definition write_float `{Platform} (val : spec_float) : M JsonSerializer unit :=
  writeFloatValue val (SFloat val).
Definition write_double `{Platform} (val : spec_float) : M JsonSerializer unit :=
  writeFloatValue val (SDouble val).

(** One iteration of the loop of [writeEscapedUTF8String]: the [switch]. *)
Definition escape_char `{Platform} (c : ascii) : M JsonSerializer unit :=
  if Ascii.eqb c dquote then out (SView (String backslash (str1 dquote)))
  else if Ascii.eqb c backslash then out (SView (String backslash (str1 backslash)))
  else if Ascii.eqb c LF then out (SView "\n")
  else if Ascii.eqb c CR then out (SView "\r")
  else if Ascii.eqb c BS then out (SView "\b")
  else if Ascii.eqb c TAB then out (SView "\t")
  else if Ascii.eqb c FF then out (SView "\f")
  else if 32 <=? char_value c then out (SChar c)
  else
    let prefix := if char_value c <? 16 then "\u000" else "\u00" in
    (* std::hex and std::dec change the base of integer output only;
       [c] is a char and is written as the character it is *)
    out (SView prefix) ;; out (SChar c).

Fixpoint escape_loop `{Platform} (str : string) : M JsonSerializer unit :=
  match str with
  | EmptyString => ret tt
  | String c rest => escape_char c ;; escape_loop rest
  end.

Definition writeEscapedUTF8String `{Platform} (str : string) : M JsonSerializer unit :=
  out (SChar dquote) ;; escape_loop str ;; out (SChar dquote).

Definition write_string `{Platform} (val : string) : M JsonSerializer unit :=
  prepareWriteVal ;; writeEscapedUTF8String val.

Definition pushKey `{Platform} (k : string) : M JsonSerializer unit :=
  fun s =>
    ((if m_hasValue s then out (SChar ",") else ret tt) ;;
     newLine ;;
     writeEscapedUTF8String k ;;
     out (SChar ":") ;;
     modify (set_hasValue false)) s.

Definition writeRawJson `{Platform} (key json : string) : M JsonSerializer unit :=
  pushKey key ;; out (SView json) ;; modify (set_hasValue true).

Definition open `{Platform} (o : ascii) : M JsonSerializer unit :=
  prepareWriteVal ;;
  out (SChar o) ;;
  modify (set_hasValue false) ;;
  modify (fun s => set_depth (uint32 (m_depth s + 1)) s).

Definition close `{Platform} (c : ascii) : M JsonSerializer unit :=
  (fun s => assert (negb (m_depth s =? 0)) s) ;;
  modify (fun s => set_depth (uint32 (m_depth s - 1)) s) ;;
  (fun s => if m_hasValue s then newLine s else ret tt s) ;;
  out (SChar c) ;;
  modify (set_hasValue true).

Definition openObject `{Platform} : M JsonSerializer unit := open "{".
Definition closeObject `{Platform} : M JsonSerializer unit := close "}".
Definition openArray `{Platform} : M JsonSerializer unit :=
  open "[" ;; modify (set_arrayJustOpen true).
Definition closeArray `{Platform} : M JsonSerializer unit :=
  close "]" ;; modify (set_arrayJustOpen false).

(** ** The text each operation appends *)

Fixpoint indent (n : nat) : string :=
  match n with
  | O => ""
  | S n' => "  " ++ indent n'
  end.

(** What [newLine] writes in state [s]. *)
Definition newline_text (s : JsonSerializer) : string :=
  if m_pretty s then String LF (indent (Z.to_nat (m_depth s))) else "".

(** What [prepareWriteVal] writes in state [s]. *)
Definition separator_text (s : JsonSerializer) : string :=
  if m_hasValue s then String "," (newline_text s)
  else if m_arrayJustOpen s then newline_text s
  else "".

(** The state [prepareWriteVal] leaves. *)
Definition prepared (s : JsonSerializer) : JsonSerializer :=
  mkJsonSerializer (m_out s ++ separator_text s) (m_pretty s) true
    (if m_hasValue s then m_arrayJustOpen s else false) (m_depth s).

(** What one iteration of the escaping loop writes for the byte [c]. *)
Definition escaped_char `{Platform} (c : ascii) : string :=
  if Ascii.eqb c dquote then String backslash (str1 dquote)
  else if Ascii.eqb c backslash then String backslash (str1 backslash)
  else if Ascii.eqb c LF then "\n"
  else if Ascii.eqb c CR then "\r"
  else if Ascii.eqb c BS then "\b"
  else if Ascii.eqb c TAB then "\t"
  else if Ascii.eqb c FF then "\f"
  else if 32 <=? char_value c then str1 c
  else (if char_value c <? 16 then "\u000" else "\u00") ++ str1 c.

Fixpoint escaped `{Platform} (str : string) : string :=
  match str with
  | EmptyString => ""
  | String c rest => escaped_char c ++ escaped rest
  end.

Definition quoted `{Platform} (str : string) : string :=
  String dquote (escaped str ++ str1 dquote).

(** ** The string encoding as the specification words it *)

Definition hex_digit (n : N) : ascii :=
  ascii_of_N (if (n <? 10)%N then 48 + n else 87 + n).

(** Short escapes for the seven named characters, [\u00XX] for any other
    code point below 0x20, every other byte unchanged. *)
Definition json_escaped_char (c : ascii) : string :=
  let n := N_of_ascii c in
  if Ascii.eqb c dquote then String backslash (str1 dquote)
  else if Ascii.eqb c backslash then String backslash (str1 backslash)
  else if Ascii.eqb c LF then "\n"
  else if Ascii.eqb c CR then "\r"
  else if Ascii.eqb c BS then "\b"
  else if Ascii.eqb c TAB then "\t"
  else if Ascii.eqb c FF then "\f"
  else if (n <? 32)%N then
    "\u00" ++ String (hex_digit (n / 16)) (str1 (hex_digit (n mod 16)))
  else str1 c.

Fixpoint json_escaped (str : string) : string :=
  match str with
  | EmptyString => ""
  | String c rest => json_escaped_char c ++ json_escaped rest
  end.

Definition json_quoted (str : string) : string :=
  String dquote (json_escaped str ++ str1 dquote).

(** ** Calls on a serializer *)

Inductive call : Type :=
| OpenObject | CloseObject | OpenArray | CloseArray
| WriteBool (val : bool)
| WriteInt (T : IntType) (val : Z)
| WriteFloat (val : spec_float)
| WriteDouble (val : spec_float)
| WriteString (val : string)
| PushKey (k : string)
| WriteRawJson (key json : string).

Definition do_call `{Platform} (c : call) : M JsonSerializer unit :=
  match c with
  | OpenObject => openObject
  | CloseObject => closeObject
  | OpenArray => openArray
  | CloseArray => closeArray
  | WriteBool val => write_bool val
  | WriteInt T val => write_int T val
  | WriteFloat val => write_float val
  | WriteDouble val => write_double val
  | WriteString val => write_string val
  | PushKey k => pushKey k
  | WriteRawJson key json => writeRawJson key json
  end.

Fixpoint do_calls `{Platform} (cs : list call) : M JsonSerializer unit :=
  match cs with
  | [] => ret tt
  | c :: cs' => do_call c ;; do_calls cs'
  end.

(** How many scopes a call opens (closes, when negative). *)
Definition scopes_opened (c : call) : Z :=
  match c with
  | OpenObject | OpenArray => 1
  | CloseObject | CloseArray => -1
  | _ => 0
  end.

Fixpoint balance (cs : list call) : Z :=
  match cs with
  | [] => 0
  | c :: cs' => scopes_opened c + balance cs'
  end.

(** The calls that write [{"a": 1, "b": [true, false, <absent>]}]: an
    absent optional element gives rise to no call at all. *)
Definition optional_element (v : option bool) : list call :=
  match v with
  | Some b => [WriteBool b]
  | None => []
  end.

Definition example_document : list call :=
  [OpenObject; PushKey "a"; WriteInt Int 1; PushKey "b"; OpenArray;
   WriteBool true; WriteBool false]
  ++ optional_element None
  ++ [CloseArray; CloseObject].

Definition example_text : string :=
  "{" ++ str1 dquote ++ "a" ++ str1 dquote ++ ":1,"
      ++ str1 dquote ++ "b" ++ str1 dquote ++ ":[true,false]}".

(** Whitespace: space, tab, line feed, carriage return. *)
Definition is_whitespace (c : ascii) : bool :=
  Ascii.eqb c " " || Ascii.eqb c TAB || Ascii.eqb c LF || Ascii.eqb c CR.

Fixpoint has_whitespace (t : string) : bool :=
  match t with
  | EmptyString => false
  | String c rest => is_whitespace c || has_whitespace rest
  end.

(** ** Deserializer: the backend interface *)

(** [DeserializerNode::Type]: a bit mask. *)
Module NodeType.
Inductive Value : Type :=
| True | False | Boolean | Integer | Float | Number
| String | Object | Array | Null.

Definition bits (t : Value) : Z :=
  match t with
  | True => 1
  | False => 2
  | Boolean => 3
  | Integer => 4
  | Float => 8
  | Number => 12
  | String => 16
  | Object => 32
  | Array => 64
  | Null => 128
  end.

Definition is_ (t mask : Value) : bool :=
  negb (Z.land (bits t) (bits mask) =? 0).
End NodeType.

(** The pure virtual members of [Deserializer], over the backend's state
    [D].  A [read(T& val)] returns the value it stores in [val]. *)
Class Deserializer (D : Type) : Type := {
  read_bool : M D bool;
  read_int : IntType -> M D Z;
  read_float : M D spec_float;
  read_double : M D spec_float;
  read_string_view : M D string;
  read_string : M D string;
  loadObject : M D unit;
  unloadObject : M D unit;
  loadArray : M D unit;
  unloadArray : M D unit;
  curLength : D -> Z;
  loadKey : string -> M D unit;
  tryLoadKey : string -> M D bool;
  loadIndex : Z -> M D unit;
  pendingType : D -> NodeType.Value;
  loadNextKey : M D (option string)
}.

(** What the interface's comments promise of [loadKey] ("throw if no
    key") and of [tryLoadKey] ("load and return true if key exists,
    otherwise return false; equivalent to
    [if (hasKey(k)) { loadKey(k); return true; } else return false;]").
    [hasKey k d] tells whether the object loaded in [d] has the key [k];
    [at_key k d d'] that [d'] is [d] with the cursor on the value of [k]. *)
Record KeyContract {D : Type} `{Deserializer D}
    (hasKey : string -> D -> bool) (at_key : string -> D -> D -> Prop) : Prop := {
  loadKey_absent : forall k d,
      hasKey k d = false -> exists msg, loadKey k d = Thrown msg;
  loadKey_present : forall k d,
      hasKey k d = true -> exists d', loadKey k d = Returned (tt, d') /\ at_key k d d';
  tryLoadKey_equiv : forall k d,
      tryLoadKey k d =
      if hasKey k d then (loadKey k ;; ret true) d else ret false d
}.

(** ** Deserializer: nodes *)

(** A node is known by its address; it holds no state of its own beside
    the reference to the deserializer, which is the state of [M D]. *)
Definition DeserializerNode : Type := nat.
Definition DeserializerObject : Type := nat.

(** Code that either compiles to a value of [A] or is ill-formed. *)
Inductive build (A : Type) : Type :=
| Compiles (a : A)
| IllFormed.

Arguments Compiles {A} a.
Arguments IllFormed {A}.

(** *** What is declared for a type *)

(** The type of a call expression: [void], or any other type. *)
Inductive result_type : Type := Void | NonVoid.

(** The ref-qualifier of a member function: without one it can be called
    on lvalues and on rvalues, with [&] on lvalues only, with [&&] on
    rvalues only. *)
Inductive ref_qualifier : Type := Unqualified | LvalueOnly | RvalueOnly.

(** A member [huseDeserialize] of [T] that can take a [DeserializerNode&]:
    its ref-qualifier, the type of the call, and what the call leaves in
    the object it is called on. *)
Record member_decl (D T : Type) : Type := {
  member_qualifier : ref_qualifier;
  member_result : result_type;
  member_call : T -> DeserializerNode -> M D T
}.

Arguments member_qualifier {D T} _.
Arguments member_result {D T} _.
Arguments member_call {D T} _.

(** A free function [huseDeserialize] that lookup finds for the arguments
    [(DeserializerNode&, T&)]: the type of the call, and what the call
    leaves in its second argument. *)
Record free_decl (D T : Type) : Type := {
  free_result : result_type;
  free_call : DeserializerNode -> T -> M D T
}.

Arguments free_result {D T} _.
Arguments free_call {D T} _.

(** What is declared for a type [T]: its member [huseDeserialize], the
    free function [huseDeserialize] for it, and the overload of
    [Deserializer::read] that takes an lvalue of [T], each if there is
    one.  Every overload of [read] returns [void]. *)
Record Declared (D T : Type) : Type := {
  declared_member : option (member_decl D T);
  declared_free : option (free_decl D T);
  viable_read : option (T -> M D T)
}.

Arguments declared_member {D T} _.
Arguments declared_free {D T} _.
Arguments viable_read {D T} _.

Definition is_some {A} (o : option A) : bool :=
  match o with Some _ => true | None => false end.

Definition is_void (r : result_type) : bool :=
  match r with Void => true | NonVoid => false end.

(** [impl::HasDeserializeMethod<T>]: the specialization is chosen when
    [std::declval<T>().huseDeserialize(std::declval<DeserializerNode&>())],
    a call on an rvalue, is well-formed and its type is the default
    argument [void]. *)
Definition HasDeserializeMethod {D T} (decl : Declared D T) : bool :=
  match declared_member decl with
  | Some m =>
      match member_qualifier m with
      | LvalueOnly => false
      | Unqualified | RvalueOnly => is_void (member_result m)
      end
  | None => false
  end.

(** [impl::HasDeserializeFunc<T>]: likewise for
    [huseDeserialize(std::declval<DeserializerNode&>(), std::declval<T&>())]. *)
Definition HasDeserializeFunc {D T} (decl : Declared D T) : bool :=
  match declared_free decl with
  | Some f => is_void (free_result f)
  | None => false
  end.

(** [impl::HasDeserializerRead<T>]: likewise for
    [std::declval<DeserializerReadHelper>().read(std::declval<T&>())]. *)
Definition HasDeserializerRead {D T} (decl : Declared D T) : bool :=
  is_some (viable_read decl).

(** [DeserializerNode::val<T>] for a type with the declarations [decl].
    In the first branch [v.huseDeserialize( *this)] is a call on the
    lvalue [v], ill-formed for a member that is [&&]-qualified; the call
    [cannot_deserialize(v)] of the last branch names no function, so that
    branch does not compile. *)
Definition DeserializerNode_val {D T} (decl : Declared D T)
  : build (DeserializerNode -> T -> M D T) :=
  if HasDeserializeMethod decl then
    match declared_member decl with
    | Some m =>
        match member_qualifier m with
        | RvalueOnly => IllFormed
        | Unqualified | LvalueOnly => Compiles (fun this v => member_call m v this)
        end
    | None => IllFormed
    end
  else if HasDeserializeFunc decl then
    match declared_free decl with
    | Some f => Compiles (fun this v => free_call f this v)
    | None => IllFormed
    end
  else if HasDeserializerRead decl then
    match viable_read decl with
    | Some read => Compiles (fun _ v => read v)
    | None => IllFormed
    end
  else IllFormed.

(** *** The hooks in use *)

(** The hooks [val] calls for a type [T], the traits evaluated: a field
    is [Some] when the trait of that name holds and the call of that
    branch is well-formed: [v.huseDeserialize(node)],
    [huseDeserialize(node, v)], [deserializer.read(v)].  Each takes the
    object [v] refers to and returns what it leaves there. *)
Record Deserializable (D T : Type) : Type := {
  member_huseDeserialize : option (T -> DeserializerNode -> M D T);
  free_huseDeserialize : option (DeserializerNode -> T -> M D T);
  backend_read : option (T -> M D T)
}.

Arguments member_huseDeserialize {D T} _.
Arguments free_huseDeserialize {D T} _.
Arguments backend_read {D T} _.

(** The hooks the traits detect among the declarations. *)
Definition detected {D T} (decl : Declared D T) : Deserializable D T :=
  {| member_huseDeserialize :=
       if HasDeserializeMethod decl
       then option_map member_call (declared_member decl) else None;
     free_huseDeserialize :=
       if HasDeserializeFunc decl
       then option_map free_call (declared_free decl) else None;
     backend_read := viable_read decl |}.

(** [DeserializerNode::val<T>] over the hooks in use: the same chain of
    branches. *)
Definition val {D T} (ti : Deserializable D T)
  : build (DeserializerNode -> T -> M D T) :=
  match member_huseDeserialize ti with
  | Some method => Compiles (fun this v => method v this)
  | None =>
      match free_huseDeserialize ti with
      | Some func => Compiles (fun this v => func this v)
      | None =>
          match backend_read ti with
          | Some read => Compiles (fun _ v => read v)
          | None => IllFormed
          end
      end
  end.

Section DeserializerObject.
Context {D : Type} `{Deserializer D}.

Definition key (this : DeserializerObject) (k : string) : M D DeserializerNode :=
  loadKey k ;; ret this.

(** [nullptr] is [None]. *)
Definition optkey (this : DeserializerObject) (k : string)
  : M D (option DeserializerNode) :=
  found <- tryLoadKey k ;;
  if found then ret (Some this) else ret None.

(** [val(k, T& v)]. *)
Definition val_key {T} (ti : Deserializable D T)
  : build (DeserializerObject -> string -> T -> M D T) :=
  match val ti with
  | Compiles node_val =>
      Compiles (fun this k v => node <- key this k ;; node_val node v)
  | IllFormed => IllFormed
  end.

(** [val(k, std::optional<T>& v)]; [T_default] is the value
    [v.emplace()] constructs. *)
Definition val_optional {T} (ti : Deserializable D T) (T_default : T)
  : build (DeserializerObject -> string -> option T -> M D (option T)) :=
  match val ti with
  | Compiles node_val =>
      Compiles (fun this k v =>
        open <- optkey this k ;;
        match open with
        | Some node => x <- node_val node T_default ;; ret (Some x)
        | None => ret None
        end)
  | IllFormed => IllFormed
  end.

(** [optval(k, T& v)]. *)
Definition optval {T} (ti : Deserializable D T)
  : build (DeserializerObject -> string -> T -> M D T) :=
  match val ti with
  | Compiles node_val =>
      Compiles (fun this k v =>
        open <- optkey this k ;;
        match open with
        | Some node => node_val node v
        | None => ret v
        end)
  | IllFormed => IllFormed
  end.

(** The primitive types: only the backend reads them. *)
Definition primitive {T} (read : M D T) : Deserializable D T :=
  {| member_huseDeserialize := None;
     free_huseDeserialize := None;
     backend_read := Some (fun _ => read) |}.

(** The declarations for a primitive type: no hook, and the backend's
    read. *)
Definition primitive_declared {T} (read : M D T) : Declared D T :=
  {| declared_member := None;
     declared_free := None;
     viable_read := Some (fun _ => read) |}.

End DeserializerObject.


(** ** A backend over a parsed document *)

(** A backend that walks a document held in memory; the theorems about
    nodes are instantiated with it. *)
#[warnings="-register-all"]
Inductive json : Type :=
| JNull
| JBool (b : bool)
| JInteger (z : Z)
| JFloat (f : spec_float)
| JString (s : string)
| JArray (items : list json)
| JObject (members : list (string * json)).

Record TreeDeserializer : Type := mkTree {
  loaded : list (json * nat);   (* the compounds loaded, innermost first,
                                   each with the count of keys enumerated *)
  pending : json                (* the value the cursor is on *)
}.

Fixpoint lookup (k : string) (members : list (string * json)) : option json :=
  match members with
  | [] => None
  | (k', v) :: rest => if String.eqb k k' then Some v else lookup k rest
  end.

(** The members of the innermost loaded compound, when it is an object. *)
Definition current_members (d : TreeDeserializer) : option (list (string * json)) :=
  match loaded d with
  | (JObject members, _) :: _ => Some members
  | _ => None
  end.

Definition tree_hasKey (k : string) (d : TreeDeserializer) : bool :=
  match current_members d with
  | Some members => is_some (lookup k members)
  | None => false
  end.

Definition tree_at_key (k : string) (d d' : TreeDeserializer) : Prop :=
  exists members v,
    current_members d = Some members /\ lookup k members = Some v /\
    d' = mkTree (loaded d) v.

Definition tree_loadKey (k : string) : M TreeDeserializer unit :=
  fun d =>
    match current_members d with
    | Some members =>
        match lookup k members with
        | Some v => Returned (tt, mkTree (loaded d) v)
        | None => Thrown ("no key " ++ k)
        end
    | None => Thrown "not in an object"
    end.

Definition tree_tryLoadKey (k : string) : M TreeDeserializer bool :=
  fun d =>
    match current_members d with
    | Some members =>
        match lookup k members with
        | Some v => Returned (true, mkTree (loaded d) v)
        | None => Returned (false, d)
        end
    | None => Returned (false, d)
    end.

Definition tree_load (want_object : bool) : M TreeDeserializer unit :=
  fun d =>
    match pending d, want_object with
    | JObject _, true | JArray _, false =>
        Returned (tt, mkTree ((pending d, O) :: loaded d) (pending d))
    | _, _ => Thrown (if want_object then "not an object" else "not an array")
    end.

Definition tree_unload : M TreeDeserializer unit :=
  fun d =>
    match loaded d with
    | (c, _) :: rest => Returned (tt, mkTree rest c)
    | [] => AssertFailed
    end.

Definition tree_curLength (d : TreeDeserializer) : Z :=
  match loaded d with
  | (JObject members, _) :: _ => Z.of_nat (List.length members)
  | (JArray items, _) :: _ => Z.of_nat (List.length items)
  | _ => 0
  end.

Definition tree_loadIndex (i : Z) : M TreeDeserializer unit :=
  fun d =>
    match loaded d with
    | (JArray items, _) :: _ =>
        if (0 <=? i) && (i <? Z.of_nat (List.length items))
        then Returned (tt, mkTree (loaded d) (nth (Z.to_nat i) items JNull))
        else Thrown "index out of bounds"
    | _ => Thrown "not in an array"
    end.

Definition tree_loadNextKey : M TreeDeserializer (option string) :=
  fun d =>
    match loaded d with
    | (JObject members, n) :: rest =>
        match nth_error members n with
        | Some (k, v) =>
            Returned (Some k, mkTree ((JObject members, S n) :: rest) v)
        | None => Returned (None, d)
        end
    | _ => Returned (None, d)
    end.

Definition tree_pendingType (d : TreeDeserializer) : NodeType.Value :=
  match pending d with
  | JNull => NodeType.Null
  | JBool true => NodeType.True
  | JBool false => NodeType.False
  | JInteger _ => NodeType.Integer
  | JFloat _ => NodeType.Float
  | JString _ => NodeType.String
  | JArray _ => NodeType.Array
  | JObject _ => NodeType.Object
  end.

Definition tree_read {T} (pick : json -> option T) (what : string)
  : M TreeDeserializer T :=
  fun d =>
    match pick (pending d) with
    | Some x => Returned (x, d)
    | None => Thrown ("not " ++ what)
    end.

#[export] Instance TreeDeserializer_backend : Deserializer TreeDeserializer := {
  read_bool := tree_read (fun j => match j with JBool b => Some b | _ => None end) "a boolean";
  read_int _ := tree_read (fun j => match j with JInteger z => Some z | _ => None end) "an integer";
  read_float := tree_read (fun j => match j with JFloat f => Some f | _ => None end) "a number";
  read_double := tree_read (fun j => match j with JFloat f => Some f | _ => None end) "a number";
  read_string_view := tree_read (fun j => match j with JString s => Some s | _ => None end) "a string";
  read_string := tree_read (fun j => match j with JString s => Some s | _ => None end) "a string";
  loadObject := tree_load true;
  unloadObject := tree_unload;
  loadArray := tree_load false;
  unloadArray := tree_unload;
  curLength := tree_curLength;
  loadKey := tree_loadKey;
  tryLoadKey := tree_tryLoadKey;
  loadIndex := tree_loadIndex;
  pendingType := tree_pendingType;
  loadNextKey := tree_loadNextKey
}.

(** The document [{"a": 1, "b": [true, false]}], loaded. *)
Definition sample_object : json :=
  JObject [("a", JInteger 1); ("b", JArray [JBool true; JBool false])].

Definition sample_tree : TreeDeserializer :=
  mkTree [(sample_object, O)] sample_object.

(** *** The stream's text for a floating-point value *)

(** The value [m * 2^e] as a fraction. *)
Definition float_num (m : positive) (e : Z) : Z :=
  if 0 <=? e then Z.pos m * 2 ^ e else Z.pos m.
Definition float_den (e : Z) : Z :=
  if 0 <=? e then 1 else 2 ^ (- e).

(** The largest [x'] from [x] up with [10^x' <= num / den], where
    [p = 10^(x+1)] and [10^x <= num / den]. *)
Fixpoint exponent_up (fuel : nat) (num den x p : Z) : Z :=
  match fuel with
  | O => x
  | S fuel' =>
      if den * p <=? num then exponent_up fuel' num den (x + 1) (p * 10) else x
  end.

(** The largest [x'] from [x] down with [10^x' <= num / den], where
    [p = 10^(-x)]. *)
Fixpoint exponent_down (fuel : nat) (num den x p : Z) : Z :=
  match fuel with
  | O => x
  | S fuel' =>
      if den <=? num * p then x else exponent_down fuel' num den (x - 1) (p * 10)
  end.

(** The decimal exponent of [num / den]: the [x] with
    [10^x <= num / den < 10^(x+1)], for values from [10^-400] to
    [10^400]. *)
Definition decimal_exponent (num den : Z) : Z :=
  if den <=? num then exponent_up 400 num den 0 10
  else exponent_down 400 num den (-1) 10.

(** [num / den] rounded to the nearest integer, ties to even. *)
Definition round_half_even (num den : Z) : Z :=
  let q := num / den in
  let r := num mod den in
  if (den <? 2 * r) || ((2 * r =? den) && Z.odd q) then q + 1 else q.

(** Six significant digits of [m * 2^e], as an integer from 100000 to
    999999, and the decimal exponent of the first. *)
Definition six_digits (m : positive) (e : Z) : Z * Z :=
  let num := float_num m e in
  let den := float_den e in
  let x := decimal_exponent num den in
  let q := if x <=? 5 then round_half_even (num * 10 ^ (5 - x)) den
           else round_half_even num (den * 10 ^ (x - 5)) in
  if q =? 1000000 then (100000, x + 1) else (q, x).

Fixpoint strip_zeros (t : string) : string :=
  match t with
  | EmptyString => EmptyString
  | String c rest =>
      match strip_zeros rest with
      | EmptyString => if Ascii.eqb c "0" then EmptyString else String c EmptyString
      | rest' => String c rest'
      end
  end.

Fixpoint zeros (n : nat) : string :=
  match n with O => "" | S n' => String "0" (zeros n') end.

Definition with_fraction (whole fraction : string) : string :=
  match strip_zeros fraction with
  | EmptyString => whole
  | f => whole ++ "." ++ f
  end.

(** The exponent of the scientific style: a sign and at least two
    digits. *)
Definition exponent_text (x : Z) : string :=
  (if x <? 0 then "-" else "+")
    ++ (if Z.abs x <? 10 then "0" else "") ++ decimal (Z.abs x).

(** The conversion [%g] with precision 6, which a stream in its default
    state applies to a floating-point value. *)
Definition general_text (f : spec_float) : string :=
  match f with
  | S754_zero sign => if sign then "-0" else "0"
  | S754_infinity sign => if sign then "-inf" else "inf"
  | S754_nan => "nan"
  | S754_finite sign m e =>
      let (q, x) := six_digits m e in
      let d := decimal q in
      (if sign then "-" else "")
        ++ (if (x <? -4) || (6 <=? x) then
              with_fraction (substring 0 1 d) (substring 1 5 d)
                ++ "e" ++ exponent_text x
            else if 0 <=? x then
              with_fraction (substring 0 (Z.to_nat (x + 1)) d)
                (substring (Z.to_nat (x + 1)) (Z.to_nat (5 - x)) d)
            else
              with_fraction "0" (zeros (Z.to_nat (- x - 1)) ++ d))
  end.

(** An LP64 platform with a signed [char] (x86-64 Linux): a [float] is
    converted to [double] without change and written as a [double] is. *)
Definition lp64 : Platform :=
  {| char_is_signed := true;
     sizeof_long := 8;
     ostream_float := general_text;
     ostream_double := general_text |}.

(** ** Reading the written text back *)

(** Modelled from the spec: the JSON reader's reads of a primitive value
    (the JSON deserializer is not among the sources).  The reader takes
    the text of one value and gives the value, or nothing when the text is
    malformed.  A boolean is [true] or [false]; an integer is decimal
    digits with an optional minus sign; a text is in quotes, with the
    short escapes and the [\u00XX] escapes of the string encoding decoded,
    a control character or any other escape being malformed, and every
    other byte taken as it is. *)
Definition json_read_bool (t : string) : option bool :=
  if String.eqb t "true" then Some true
  else if String.eqb t "false" then Some false
  else None.

Definition json_read_integer (t : string) : option Z :=
  option_map Z.of_int (NilZero.int_of_string t).

Definition hex_value (c : ascii) : option N :=
  let n := N_of_ascii c in
  if ((48 <=? n) && (n <=? 57))%N then Some (n - 48)%N
  else if ((97 <=? n) && (n <=? 102))%N then Some (n - 87)%N
  else if ((65 <=? n) && (n <=? 70))%N then Some (n - 55)%N
  else None.

(** The escape [\u00XX] for the two characters [XX]. *)
Definition unicode_escape (h1 h2 h3 h4 : ascii) : option ascii :=
  match hex_value h1, hex_value h2, hex_value h3, hex_value h4 with
  | Some 0%N, Some 0%N, Some a, Some b =>
      if (a <? 8)%N then Some (ascii_of_N (16 * a + b)) else None
  | _, _, _, _ => None
  end.

Definition short_escape (e : ascii) : option ascii :=
  if Ascii.eqb e dquote then Some dquote
  else if Ascii.eqb e backslash then Some backslash
  else if Ascii.eqb e "n" then Some LF
  else if Ascii.eqb e "r" then Some CR
  else if Ascii.eqb e "b" then Some BS
  else if Ascii.eqb e "t" then Some TAB
  else if Ascii.eqb e "f" then Some FF
  else None.

Definition cons_char (c : option ascii) (rest : option string) : option string :=
  match c, rest with
  | Some c, Some rest => Some (String c rest)
  | _, _ => None
  end.

(** The characters after the opening quote, up to the closing quote,
    which must end the text. *)
Fixpoint json_read_body (t : string) : option string :=
  match t with
  | EmptyString => None
  | String c rest =>
      if Ascii.eqb c dquote then
        match rest with
        | EmptyString => Some EmptyString
        | String _ _ => None
        end
      else if Ascii.eqb c backslash then
        match rest with
        | String e rest1 =>
            if Ascii.eqb e "u" then
              match rest1 with
              | String h1 (String h2 (String h3 (String h4 rest2))) =>
                  cons_char (unicode_escape h1 h2 h3 h4) (json_read_body rest2)
              | _ => None
              end
            else cons_char (short_escape e) (json_read_body rest1)
        | EmptyString => None
        end
      else if (N_of_ascii c <? 32)%N then None
      else cons_char (Some c) (json_read_body rest)
  end.

Definition json_read_string (t : string) : option string :=
  match t with
  | String q body => if Ascii.eqb q dquote then json_read_body body else None
  | EmptyString => None
  end.

(** The text a call writes into a new compact serializer. *)
Definition written `{Platform} (c : call) : option string :=
  match do_call c (JsonSerializer_new "" false) with
  | Returned (_, s) => Some (m_out s)
  | _ => None
  end.

(** A byte the serializer writes as the string encoding has it: one of
    the seven characters with a short escape, or a byte from 0x20 up
    that, where [char] is signed, is below 0x80. *)
Definition plain_char `{Platform} (c : ascii) : bool :=
  Ascii.eqb c dquote || Ascii.eqb c backslash || Ascii.eqb c LF
  || Ascii.eqb c CR || Ascii.eqb c BS || Ascii.eqb c TAB || Ascii.eqb c FF
  || ((32 <=? N_of_ascii c)%N
      && (negb char_is_signed || (N_of_ascii c <? 128)%N)).

Fixpoint plain_text `{Platform} (str : string) : bool :=
  match str with
  | EmptyString => true
  | String c rest => plain_char c && plain_text rest
  end.

(** Whether [writePotentiallyBigIntegerValue] writes [val] of type [T]. *)
Definition accepted `{Platform} (T : IntType) (val : Z) : bool :=
  (sizeof T <=? 4) ||
  (if is_signed T then (MIN_D <=? val) && (val <=? MAX_D) else val <=? MAX_D).

(** The control character U+0001. *)
Definition SOH : ascii := chr 1.

(** Whether [write] for the integer type [T] writes [val]: unchecked for
    the four overloads that call [writeSimpleValue] directly. *)
Definition written_as_is (T : IntType) : bool :=
  match T with
  | Short | UShort | Int | UInt => true
  | Long | ULong | LongLong | ULongLong => false
  end.

(** ** Sessions *)

(** A session: the calls, then the destructor. *)
Definition session `{Platform} (cs : list call) : M JsonSerializer unit :=
  do_calls cs ;; JsonSerializer_delete.

(** No call closes a scope that is not open, counting from [d] open
    scopes. *)
Fixpoint well_nested (d : Z) (cs : list call) : bool :=
  match cs with
  | [] => true
  | c :: cs' =>
      (0 <=? d + scopes_opened c) && well_nested (d + scopes_opened c) cs'
  end.

(** ** Values in a scope *)

(** Whether a call writes a value, and the text of the value it writes. *)
Definition writes_value `{Platform} (c : call) : bool :=
  match c with
  | WriteBool _ | WriteString _ => true
  | WriteInt T val => written_as_is T || accepted T val
  | WriteFloat val | WriteDouble val => isfinite val
  | _ => false
  end.

Definition value_text `{Platform} (c : call) : string :=
  match c with
  | WriteBool val => if val then "true" else "false"
  | WriteInt _ val => decimal val
  | WriteFloat val => ostream_float val
  | WriteDouble val => ostream_double val
  | WriteString val => quoted val
  | _ => ""
  end.

(** The line break [newLine] writes at depth [d]. *)
Definition line_break (pretty : bool) (d : Z) : string :=
  if pretty then String LF (indent (Z.to_nat d)) else "".

(** Texts, each after a line break at depth [d], with commas between, and
    a line break at depth [d - 1] after the last; nothing for no text. *)
Fixpoint more_items (pretty : bool) (d : Z) (texts : list string) : string :=
  match texts with
  | [] => ""
  | t :: rest => "," ++ line_break pretty d ++ t ++ more_items pretty d rest
  end.

Definition items (pretty : bool) (d : Z) (texts : list string) : string :=
  match texts with
  | [] => ""
  | t :: rest =>
      line_break pretty d ++ t ++ more_items pretty d rest
        ++ line_break pretty (d - 1)
  end.

(** ** Type tags *)

(** The tags of one kind of value, as opposed to the two masks. *)
Definition is_tag (t : NodeType.Value) : bool :=
  match t with
  | NodeType.Boolean | NodeType.Number => false
  | _ => true
  end.

(** ** Documents *)

(** A document as a caller writes it: a value, an array of documents, or
    an object of keyed documents. *)
#[warnings="-register-all"] Inductive doc : Type :=
| Leaf (c : call)
| Arr (elements : list doc)
| Obj (members : list (string * doc)).

(** The calls that write a document. *)
Fixpoint calls_of (d : doc) : list call :=
  match d with
  | Leaf c => [c]
  | Arr elements => OpenArray :: flat_map calls_of elements ++ [CloseArray]
  | Obj members =>
      OpenObject
        :: flat_map (fun m => PushKey (fst m) :: calls_of (snd m)) members
        ++ [CloseObject]
  end.

(** Every leaf is a call that writes a value. *)
Fixpoint writes_values `{Platform} (d : doc) : bool :=
  match d with
  | Leaf c => writes_value c
  | Arr elements => forallb writes_values elements
  | Obj members => forallb (fun m => writes_values (snd m)) members
  end.

(** The number of scopes nested in a document. *)
Fixpoint height (d : doc) : Z :=
  match d with
  | Leaf _ => 0
  | Arr elements => 1 + fold_right (fun e h => Z.max (height e) h) 0 elements
  | Obj members => 1 + fold_right (fun m h => Z.max (height (snd m)) h) 0 members
  end.

(** The text of a document written at depth [d]. *)
Fixpoint render `{Platform} (pretty : bool) (d : Z) (x : doc) : string :=
  match x with
  | Leaf c => value_text c
  | Arr elements =>
      "[" ++ items pretty (d + 1) (map (render pretty (d + 1)) elements) ++ "]"
  | Obj members =>
      "{" ++ items pretty (d + 1)
               (map (fun m => quoted (fst m) ++ ":" ++ render pretty (d + 1) (snd m))
                  members)
          ++ "}"
  end.

(** Induction on documents, with the hypothesis for every element and
    member. *)
Fixpoint doc_induction (Q : doc -> Prop)
    (HLeaf : forall c, Q (Leaf c))
    (HArr : forall elements, Forall Q elements -> Q (Arr elements))
    (HObj : forall members, Forall (fun m => Q (snd m)) members -> Q (Obj members))
    (x : doc) : Q x :=
  match x with
  | Leaf c => HLeaf c
  | Arr elements =>
      HArr elements
        ((fix all (l : list doc) : Forall Q l :=
            match l with
            | [] => Forall_nil Q
            | e :: l' => Forall_cons e (doc_induction Q HLeaf HArr HObj e) (all l')
            end) elements)
  | Obj members =>
      HObj members
        ((fix all (l : list (string * doc)) : Forall (fun m => Q (snd m)) l :=
            match l with
            | [] => Forall_nil (fun m => Q (snd m))
            | m :: l' =>
                Forall_cons m (doc_induction Q HLeaf HArr HObj (snd m)) (all l')
            end) members)
  end.

(** ** Layout *)

(** A text without the layout of pretty mode: every line feed and the
    spaces that follow it are dropped.  [in_layout] tells whether the text
    starts within such a run. *)
Fixpoint strip_layout (in_layout : bool) (t : string) : string :=
  match t with
  | EmptyString => EmptyString
  | String c rest =>
      if Ascii.eqb c LF then strip_layout true rest
      else if in_layout && Ascii.eqb c " " then strip_layout true rest
      else String c (strip_layout false rest)
  end.

(** Whether a text ends within such a run. *)
Fixpoint layout_after (in_layout : bool) (t : string) : bool :=
  match t with
  | EmptyString => in_layout
  | String c rest =>
      if Ascii.eqb c LF then layout_after true rest
      else if in_layout && Ascii.eqb c " " then layout_after true rest
      else layout_after false rest
  end.

Fixpoint no_LF (t : string) : bool :=
  match t with
  | EmptyString => true
  | String c rest => negb (Ascii.eqb c LF) && no_LF rest
  end.

(** A text that holds no line feed and starts with a character other
    than a space. *)
Definition solid (t : string) : bool :=
  match t with
  | EmptyString => false
  | String c rest => negb (Ascii.eqb c " ") && no_LF t
  end.

(** Every leaf writes a boolean, an integer or a text. *)
Fixpoint plain_leaves `{Platform} (d : doc) : bool :=
  match d with
  | Leaf (WriteBool _) | Leaf (WriteString _) => true
  | Leaf (WriteInt T val) => written_as_is T || accepted T val
  | Leaf _ => false
  | Arr elements => forallb plain_leaves elements
  | Obj members => forallb (fun m => plain_leaves (snd m)) members
  end.

(** The tallest of the documents of a list. *)
Definition tallest {A} (doc_of : A -> doc) (l : list A) : Z :=
  fold_right (fun m h => Z.max (height (doc_of m)) h) 0 l.

(** The state in which a document written from state [s] leaves the
    serializer. *)
Definition after_document `{Platform} (x : doc) (s : JsonSerializer) : JsonSerializer :=
  mkJsonSerializer
    (m_out s ++ separator_text s ++ render (m_pretty s) (m_depth s) x)
    (m_pretty s) true false (m_depth s).

(** That the calls of [x] do leave the serializer in that state, from
    every state in which the array flag is not set together with the value
    flag and the depth leaves room for the scopes of [x]. *)
Definition is_written `{Platform} (x : doc) : Prop :=
  forall s : JsonSerializer,
    writes_values x = true ->
    m_hasValue s && m_arrayJustOpen s = false ->
    0 <= m_depth s ->
    m_depth s + height x < 2 ^ 32 ->
    do_calls (calls_of x) s = Returned (tt, after_document x s).

(** [tp] is [tc] with layout: stripped from any start it gives [tc], and
    it does not end within layout. *)
Definition same_but_layout (tp tc : string) : Prop :=
  forall b, strip_layout b tp = tc /\ layout_after b tp = false.

(** A document with a nested empty array. *)
Definition sample_doc : doc :=
  Obj [("a", Leaf (WriteInt Int 1));
       ("b", Arr [Leaf (WriteBool true); Leaf (WriteString "x y"); Arr []])].

(** ** What an escaped text stands for *)

(** The bytes that a text written by the loop of
    [writeEscapedUTF8String] stands for: a short escape gives its
    character, [\u000] and [\u00] give the byte that follows them, any
    other byte gives itself. *)
Fixpoint unescaped (t : string) : option string :=
  match t with
  | EmptyString => Some EmptyString
  | String c rest =>
      if Ascii.eqb c backslash then
        match rest with
        | String e rest1 =>
            if Ascii.eqb e "u" then
              match rest1 with
              | String z1 (String z2 (String x rest2)) =>
                  if Ascii.eqb z1 "0" && Ascii.eqb z2 "0" then
                    if Ascii.eqb x "0" then
                      match rest2 with
                      | String y rest3 => cons_char (Some y) (unescaped rest3)
                      | EmptyString => None
                      end
                    else cons_char (Some x) (unescaped rest2)
                  else None
              | _ => None
              end
            else cons_char (short_escape e) (unescaped rest1)
        | EmptyString => None
        end
      else cons_char (Some c) (unescaped rest)
  end.

(** * Proofs *)

(** ** Strings *)

Lemma append_nil_r (a : string) : a ++ "" = a.
Proof. induction a as [|c a IH]; simpl; [reflexivity | now rewrite IH]. Qed.

Lemma append_assoc (a b c : string) : (a ++ b) ++ c = a ++ b ++ c.
Proof. induction a as [|x a IH]; simpl; [reflexivity | now rewrite IH]. Qed.

Lemma set_out_same (s : JsonSerializer) : set_out (m_out s) s = s.
Proof. now destruct s. Qed.

(** Reduce record projections, then bring both texts to one normal form. *)
Ltac fields :=
  unfold modify, ret, set_out, set_hasValue, set_arrayJustOpen, set_depth,
    newline_text, separator_text, prepared;
  cbn [m_out m_pretty m_hasValue m_arrayJustOpen m_depth fst snd].

Ltac text_norm :=
  unfold quoted, str1;
  repeat (progress (rewrite ?append_assoc, ?append_nil_r; cbn [append])).

Ltac same_text := fields; text_norm; reflexivity.

(** ** The serializer, operation by operation *)

Section SerializerSteps.
Context `{P : Platform}.

Lemma out_eq v s :
  out v s = Returned (tt, set_out (m_out s ++ ostream_insert v) s).
Proof. reflexivity. Qed.

Lemma indent_loop_eq n s :
  indent_loop n s = Returned (tt, set_out (m_out s ++ indent n) s).
Proof.
  revert s; induction n as [|n IH]; intros s; simpl.
  - unfold ret. now rewrite append_nil_r, set_out_same.
  - unfold bind at 1. rewrite out_eq, IH. simpl.
    unfold set_out; simpl. now rewrite !append_assoc.
Qed.

Lemma newLine_eq s :
  newLine s = Returned (tt, set_out (m_out s ++ newline_text s) s).
Proof.
  unfold newLine, newline_text. destruct (m_pretty s) eqn:E; simpl.
  - unfold bind. rewrite out_eq, indent_loop_eq. unfold set_out; simpl.
    now rewrite append_assoc.
  - unfold ret. now rewrite append_nil_r, set_out_same.
Qed.

Lemma prepareWriteVal_eq s : prepareWriteVal s = Returned (tt, prepared s).
Proof.
  unfold prepareWriteVal, prepared, separator_text.
  destruct s as [o p h a d]; simpl.
  destruct h; [| destruct a]; unfold bind at 1.
  - unfold bind. rewrite out_eq, newLine_eq. unfold modify, set_out, newline_text; simpl.
    now rewrite append_assoc.
  - unfold bind. rewrite newLine_eq. unfold modify, set_out, newline_text; simpl.
    reflexivity.
  - unfold ret, modify; simpl. now rewrite append_nil_r.
Qed.

Lemma writeSimpleValue_eq v s :
  writeSimpleValue v s =
  Returned (tt, set_out (m_out (prepared s) ++ ostream_insert v) (prepared s)).
Proof. unfold writeSimpleValue, bind. now rewrite prepareWriteVal_eq, out_eq. Qed.

Lemma escape_char_eq c s :
  escape_char c s = Returned (tt, set_out (m_out s ++ escaped_char c) s).
Proof.
  unfold escape_char, escaped_char.
  repeat (destruct (Ascii.eqb c _); [reflexivity |]).
  destruct (32 <=? char_value c); [reflexivity |].
  unfold bind. rewrite !out_eq. unfold set_out; simpl.
  now rewrite append_assoc.
Qed.

Lemma escape_loop_eq str s :
  escape_loop str s = Returned (tt, set_out (m_out s ++ escaped str) s).
Proof.
  revert s; induction str as [|c rest IH]; intros s; simpl.
  - unfold ret. now rewrite append_nil_r, set_out_same.
  - unfold bind. rewrite escape_char_eq, IH. unfold set_out; simpl.
    now rewrite append_assoc.
Qed.

Lemma writeEscapedUTF8String_eq str s :
  writeEscapedUTF8String str s =
  Returned (tt, set_out (m_out s ++ quoted str) s).
Proof.
  unfold writeEscapedUTF8String, bind. rewrite out_eq, escape_loop_eq, out_eq.
  unfold set_out, quoted; simpl. now rewrite !append_assoc.
Qed.

End SerializerSteps.

Section SerializerOperations.
Context `{P : Platform}.

Lemma pushKey_eq k s :
  pushKey k s =
  Returned (tt, mkJsonSerializer
                  (m_out s ++ (if m_hasValue s then "," else "")
                     ++ newline_text s ++ quoted k ++ ":")
                  (m_pretty s) false (m_arrayJustOpen s) (m_depth s)).
Proof.
  unfold pushKey, bind. destruct (m_hasValue s) eqn:E.
  - rewrite out_eq, newLine_eq, writeEscapedUTF8String_eq, out_eq. same_text.
  - unfold ret. rewrite newLine_eq, writeEscapedUTF8String_eq, out_eq. same_text.
Qed.

Lemma open_eq o s :
  open o s =
  Returned (tt, mkJsonSerializer (m_out (prepared s) ++ str1 o) (m_pretty s)
                  false (m_arrayJustOpen (prepared s)) (uint32 (m_depth s + 1))).
Proof.
  unfold open, bind. rewrite prepareWriteVal_eq, out_eq. reflexivity.
Qed.

Lemma close_eq c s :
  close c s =
  if m_depth s =? 0 then AssertFailed
  else
    let s1 := set_depth (uint32 (m_depth s - 1)) s in
    Returned (tt, mkJsonSerializer
                    (m_out s ++ (if m_hasValue s then newline_text s1 else "")
                       ++ str1 c)
                    (m_pretty s) true (m_arrayJustOpen s) (uint32 (m_depth s - 1))).
Proof.
  unfold close, bind, assert. destruct (m_depth s =? 0); simpl; [reflexivity |].
  fields. destruct (m_hasValue s) eqn:E.
  - rewrite ?newLine_eq, ?out_eq. same_text.
  - rewrite ?out_eq. same_text.
Qed.

(** Every call but the two closes returns. *)
Lemma do_call_depth c s :
  0 <= m_depth s < 2 ^ 32 ->
  match do_call c s with
  | Returned (_, s') =>
      m_depth s' = uint32 (m_depth s + scopes_opened c) /\
      0 <= m_depth s + scopes_opened c
  | Thrown _ => False
  | AssertFailed => scopes_opened c = -1 /\ m_depth s = 0
  end.
Proof.
  intros Hd.
  assert (Hid : m_depth s = uint32 (m_depth s + 0) /\ 0 <= m_depth s + 0).
  { unfold uint32. rewrite Z.add_0_r, Z.mod_small; lia. }
  destruct c as [| | | | b | T v | f | f | str | k | k j]; simpl;
    unfold openObject, closeObject, openArray, closeArray,
    write_bool, write_int, writePotentiallyBigIntegerValue, write_float,
    write_double, writeFloatValue, write_string, writeRawJson, throwException.
  - rewrite open_eq. split; [reflexivity | lia].
  - rewrite close_eq. destruct (m_depth s =? 0) eqn:E; simpl;
      [lia | split; [reflexivity | lia]].
  - unfold bind. rewrite open_eq. split; [reflexivity | lia].
  - unfold bind. rewrite close_eq.
    destruct (m_depth s =? 0) eqn:E; simpl; [lia | split; [reflexivity | lia]].
  - rewrite writeSimpleValue_eq. exact Hid.
  - destruct T; repeat
      match goal with
      | |- context [if ?b then _ else _] => destruct b
      end; try rewrite writeSimpleValue_eq; exact Hid.
  - destruct (isfinite f); [rewrite writeSimpleValue_eq |]; exact Hid.
  - destruct (isfinite f); [rewrite writeSimpleValue_eq |]; exact Hid.
  - unfold bind. rewrite prepareWriteVal_eq, writeEscapedUTF8String_eq. exact Hid.
  - rewrite pushKey_eq. exact Hid.
  - unfold bind. rewrite pushKey_eq. exact Hid.
Qed.

Lemma uint32_range z : 0 <= uint32 z < 2 ^ 32.
Proof. unfold uint32. apply Z.mod_pos_bound. lia. Qed.

Lemma do_calls_depth_range cs : forall s s',
  0 <= m_depth s < 2 ^ 32 ->
  do_calls cs s = Returned (tt, s') ->
  0 <= m_depth s' < 2 ^ 32.
Proof.
  induction cs as [|c cs IH]; intros s s' Hd; simpl.
  - unfold ret. intros E. injection E as <-. exact Hd.
  - unfold bind. pose proof (do_call_depth c s Hd) as Hc.
    destruct (do_call c s) as [[[] s1]| |]; try discriminate.
    intros E. apply (IH s1 s'); [| exact E].
    rewrite (proj1 Hc). apply uint32_range.
Qed.

End SerializerOperations.

(** ** Floating-point values *)

(** What [write(float)] and [write(double)] do, for every value: a finite
    value is written after the separator; for any other value the call
    returns with the serializer as it was. *)
Lemma writeFloatValue_eq `{Platform} (val : spec_float) (v : streamable) s :
  writeFloatValue val v s =
  Returned (tt, if isfinite val
                then set_out (m_out (prepared s) ++ ostream_insert v) (prepared s)
                else s).
Proof.
  unfold writeFloatValue. destruct (isfinite val).
  - apply writeSimpleValue_eq.
  - reflexivity.
Qed.

(** C1: writing a NaN or an infinity, as a [double] or as a [float], writes
    nothing, and no exception is thrown: the call returns normally and
    leaves the serializer unchanged. *)
Theorem write_not_finite_returns :
  forall `{Platform} (s : JsonSerializer),
    write_double S754_nan s = Returned (tt, s) /\
    write_double (S754_infinity false) s = Returned (tt, s) /\
    write_double (S754_infinity true) s = Returned (tt, s) /\
    write_float S754_nan s = Returned (tt, s) /\
    write_float (S754_infinity false) s = Returned (tt, s) /\
    write_float (S754_infinity true) s = Returned (tt, s).
Proof. intros P s. repeat split; reflexivity. Qed.

(** ** Integers *)

Lemma writePotentiallyBigIntegerValue_eq `{Platform} T val s :
  writePotentiallyBigIntegerValue T val s =
  Returned (tt, if accepted T val
                then set_out (m_out (prepared s) ++ decimal val) (prepared s)
                else s).
Proof.
  unfold writePotentiallyBigIntegerValue, accepted.
  destruct (sizeof T <=? 4); simpl; [apply writeSimpleValue_eq |].
  destruct (is_signed T).
  - destruct ((MIN_D <=? val) && (val <=? MAX_D));
      [apply writeSimpleValue_eq | reflexivity].
  - destruct (val <=? MAX_D); [apply writeSimpleValue_eq | reflexivity].
Qed.

(** C2: writing a [long long] or an [unsigned long long] one past the
    bound 9007199254740992 writes nothing, and no exception is thrown: the
    call returns normally and leaves the serializer unchanged. *)
Theorem write_too_big_returns :
  forall `{Platform} (s : JsonSerializer),
    write_int LongLong 9007199254740993 s = Returned (tt, s) /\
    write_int LongLong (-9007199254740993) s = Returned (tt, s) /\
    write_int ULongLong 9007199254740993 s = Returned (tt, s).
Proof. intros P s. repeat split; reflexivity. Qed.

(** ** Strings *)

(** The text the specification gives the control character U+0001. *)
Example json_escaped_SOH : json_escaped_char SOH = "\u0001".
Proof. reflexivity. Qed.

(** C3: for the one-character string U+0001 the serializer writes, between
    the quotes, the five characters [\u000] followed by the raw byte 0x01,
    not the six-character escape [\u0001]; and a byte at or above 0x80 is
    written unchanged only where [char] is unsigned: where it is signed
    the byte is preceded by [\u000]. *)
Theorem writeEscapedUTF8String_control_character :
  forall `{Platform} (s : JsonSerializer),
    writeEscapedUTF8String (str1 SOH) s =
      Returned (tt, set_out (m_out s ++ str1 dquote ++ "\u000" ++ str1 SOH
                               ++ str1 dquote) s) /\
    quoted (str1 SOH) <> json_quoted (str1 SOH) /\
    escaped_char (chr 195) =
      (if char_is_signed then "\u000" ++ str1 (chr 195) else str1 (chr 195)).
Proof.
  intros P s. split; [| split].
  - rewrite writeEscapedUTF8String_eq.
    destruct P as [[] ? ? ?]; reflexivity.
  - destruct P as [[] ? ? ?]; vm_compute; discriminate.
  - destruct P as [[] ? ? ?]; reflexivity.
Qed.

(** ** Layout *)

Lemma newLine_compact `{Platform} s :
  m_pretty s = false -> newLine s = Returned (tt, s).
Proof.
  intros E. rewrite newLine_eq. unfold newline_text. rewrite E.
  now rewrite append_nil_r, set_out_same.
Qed.

(** C5: from a new compact serializer with an empty stream, the calls for
    the object with key [a] holding 1 and key [b] holding the array of
    [true], [false] and an absent optional return, leave exactly
    [{"a":1,"b":[true,false]}] in the stream and no scope open; the text
    holds no whitespace; and in compact mode the separator written before
    a value is a lone comma when the scope already holds a value and
    nothing otherwise. *)
Theorem compact_example_document :
  forall `{Platform},
    (exists s',
        do_calls example_document (JsonSerializer_new "" false) = Returned (tt, s') /\
        m_out s' = example_text /\ m_depth s' = 0) /\
    has_whitespace example_text = false /\
    (forall o h a d,
        let s := mkJsonSerializer o false h a d in
        newLine s = Returned (tt, s) /\
        separator_text s = if h then "," else "").
Proof.
  intros P. split; [| split].
  - exists (mkJsonSerializer example_text false true false 0).
    split; [| split; reflexivity].
    destruct P as [[] ? ? ?]; vm_compute; reflexivity.
  - reflexivity.
  - intros o h a d s. split.
    + now apply newLine_compact.
    + unfold separator_text, newline_text, s; simpl. now destruct h, a.
Qed.

(** ** Nesting depth *)

(** C8: on a serializer whose depth is a value of its 32-bit counter,
    [open] returns and adds one to the depth (short of the counter's
    largest value); [close] fails its assertion, and throws nothing, when
    the depth is zero, and otherwise returns and takes one off; the
    destructor fails its assertion exactly when the depth is not zero; and
    after any sequence of calls that returns the depth is again a value of
    the counter, so never negative. *)
Theorem depth_is_an_invariant :
  forall `{Platform} (s : JsonSerializer),
    0 <= m_depth s < 2 ^ 32 ->
    (forall o, exists s',
        open o s = Returned (tt, s') /\
        (m_depth s + 1 < 2 ^ 32 -> m_depth s' = m_depth s + 1)) /\
    (forall c,
        if m_depth s =? 0 then close c s = AssertFailed
        else exists s', close c s = Returned (tt, s') /\
                        m_depth s' = m_depth s - 1) /\
    JsonSerializer_delete s =
      (if m_depth s =? 0 then Returned (tt, s) else AssertFailed) /\
    (forall cs s', do_calls cs s = Returned (tt, s') -> 0 <= m_depth s' < 2 ^ 32) /\
    (forall c s', do_call c s = Returned (tt, s') ->
                  m_depth s' = uint32 (m_depth s + scopes_opened c)).
Proof.
  intros P s Hd. split; [| split; [| split; [| split]]].
  - intros o. rewrite open_eq. eexists. split; [reflexivity |].
    cbn [m_depth]. intros Hmax. unfold uint32. apply Z.mod_small. lia.
  - intros c. rewrite close_eq. destruct (m_depth s =? 0) eqn:E; [reflexivity |].
    eexists. split; [reflexivity |].
    cbn [m_depth]. unfold uint32. apply Z.mod_small. lia.
  - unfold JsonSerializer_delete, assert. reflexivity.
  - intros cs s'. now apply do_calls_depth_range.
  - intros c s' E. pose proof (do_call_depth c s Hd) as Hc.
    rewrite E in Hc. exact (proj1 Hc).
Qed.

Lemma depth_is_an_invariant_witness :
  let s := mkJsonSerializer "{" false false false 1 in
  0 <= m_depth s < 2 ^ 32 /\
  (forall o, exists s',
      @open lp64 o s = Returned (tt, s') /\
      (m_depth s + 1 < 2 ^ 32 -> m_depth s' = m_depth s + 1)) /\
  (forall c,
      if m_depth s =? 0 then @close lp64 c s = AssertFailed
      else exists s', @close lp64 c s = Returned (tt, s') /\
                      m_depth s' = m_depth s - 1) /\
  JsonSerializer_delete s =
    (if m_depth s =? 0 then Returned (tt, s) else AssertFailed) /\
  (forall cs s', @do_calls lp64 cs s = Returned (tt, s') ->
                 0 <= m_depth s' < 2 ^ 32) /\
  (forall c s', @do_call lp64 c s = Returned (tt, s') ->
                m_depth s' = uint32 (m_depth s + scopes_opened c)).
Proof.
  split; [cbn; lia |].
  apply (@depth_is_an_invariant lp64 (mkJsonSerializer "{" false false false 1)).
  cbn; lia.
Defined.

(** ** Raw fragments *)

(** C9: [writeRawJson key json] returns; it leaves in the stream what
    [pushKey key] leaves (a comma when the scope holds a value, the line
    break of pretty mode, the escaped key in quotes, a colon) followed by
    [json] itself, character for character; the value flag is set; mode,
    depth and the array flag are as before. *)
Theorem writeRawJson_splices_fragment :
  forall `{Platform} (key json : string) (s : JsonSerializer),
    exists s1,
      pushKey key s = Returned (tt, s1) /\
      m_out s1 = m_out s ++ (if m_hasValue s then "," else "")
                   ++ newline_text s ++ quoted key ++ ":" /\
      writeRawJson key json s =
        Returned (tt, mkJsonSerializer (m_out s1 ++ json) (m_pretty s) true
                        (m_arrayJustOpen s) (m_depth s)).
Proof.
  intros P key json s. eexists. split; [apply pushKey_eq |].
  split; [reflexivity |].
  unfold writeRawJson, bind. rewrite pushKey_eq, out_eq. reflexivity.
Qed.

(** ** Dispatch of [val] *)



(** Unless the detected member is [&&]-qualified, [val] for the
    declarations is [val] over the hooks the traits detect. *)
Lemma DeserializerNode_val_detected {D T} (decl : Declared D T) :
  (forall m, declared_member decl = Some m -> member_qualifier m <> RvalueOnly) ->
  DeserializerNode_val decl = val (detected decl).
Proof.
  intros Hq. unfold DeserializerNode_val, val, detected.
  cbn [member_huseDeserialize free_huseDeserialize backend_read].
  unfold HasDeserializerRead.
  destruct (HasDeserializeMethod decl) eqn:Em.
  - unfold HasDeserializeMethod in Em.
    destruct (declared_member decl) as [m|] eqn:Ed; [| discriminate Em].
    cbn [option_map]. specialize (Hq m eq_refl).
    destruct (member_qualifier m); try reflexivity. now destruct Hq.
  - destruct (HasDeserializeFunc decl) eqn:Ef.
    + unfold HasDeserializeFunc in Ef.
      destruct (declared_free decl) as [f|]; [reflexivity | discriminate Ef].
    + destruct (viable_read decl); reflexivity.
Qed.

(** ** Keys *)

(** The backend over a parsed document keeps the promises of the
    interface. *)
Lemma TreeDeserializer_contract : KeyContract tree_hasKey tree_at_key.
Proof.
  split.
  - intros k d E. cbn. unfold tree_loadKey. unfold tree_hasKey in E.
    destruct (current_members d) as [members|]; [| now eexists].
    destruct (lookup k members); [discriminate | now eexists].
  - intros k d E. cbn. unfold tree_loadKey, tree_at_key. unfold tree_hasKey in E.
    destruct (current_members d) as [members|]; [| discriminate].
    destruct (lookup k members) as [v|] eqn:L; [| discriminate].
    eexists. split; [reflexivity |]. now exists members, v.
  - intros k d. cbn. unfold tree_tryLoadKey, tree_loadKey, tree_hasKey, bind, ret.
    destruct (current_members d) as [members|]; [| reflexivity].
    destruct (lookup k members); reflexivity.
Qed.

Section Keys.
Context {D : Type} `{Deserializer D}.
Variable hasKey : string -> D -> bool.
Variable at_key : string -> D -> D -> Prop.
Hypothesis contract : KeyContract hasKey at_key.

Lemma key_present this k d :
  hasKey k d = true ->
  exists d', at_key k d d' /\ loadKey k d = Returned (tt, d') /\
             key this k d = Returned (this, d') /\
             optkey this k d = Returned (Some this, d').
Proof.
  intros E. destruct (loadKey_present _ _ contract k d E) as [d' [L A]].
  exists d'. split; [exact A |]. split; [exact L |].
  unfold key, optkey, bind. rewrite (tryLoadKey_equiv _ _ contract), E.
  unfold bind. rewrite L. split; reflexivity.
Qed.

Lemma key_absent this k d :
  hasKey k d = false ->
  (exists msg, key this k d = Thrown msg) /\
  optkey this k d = Returned (None, d).
Proof.
  intros E. destruct (loadKey_absent _ _ contract k d E) as [msg L]. split.
  - exists msg. unfold key, bind. now rewrite L.
  - unfold optkey, bind. now rewrite (tryLoadKey_equiv _ _ contract), E.
Qed.

End Keys.

(** C7: over a backend that keeps the promises of the interface, for
    every object node and key: when the key is present, [key] returns the
    node with the cursor on the key's value, and [optkey] returns the same
    node with the same cursor; when the key is absent, [key] throws, while
    [optkey] throws nothing and returns the null pointer, the backend left
    as it was. *)
Theorem key_throws_optkey_reports_absent :
  forall (D : Type) (B : Deserializer D)
         (hasKey : string -> D -> bool) (at_key : string -> D -> D -> Prop),
    KeyContract hasKey at_key ->
    forall (this : DeserializerObject) (k : string) (d : D),
      (hasKey k d = true ->
       exists d', at_key k d d' /\
                  key this k d = Returned (this, d') /\
                  optkey this k d = Returned (Some this, d')) /\
      (hasKey k d = false ->
       (exists msg, key this k d = Thrown msg) /\
       optkey this k d = Returned (None, d)).
Proof.
  intros D B hasKey at_key contract this k d. split; intros E.
  - destruct (key_present hasKey at_key contract this k d E) as [d' [A [_ [K O]]]].
    now exists d'.
  - now apply (key_absent hasKey at_key contract).
Qed.

Lemma key_throws_optkey_reports_absent_witness :
  KeyContract tree_hasKey tree_at_key /\
  (tree_hasKey "b" sample_tree = true /\
   exists d', tree_at_key "b" sample_tree d' /\
              key 0%nat "b" sample_tree = Returned (0%nat, d') /\
              optkey 0%nat "b" sample_tree = Returned (Some 0%nat, d')) /\
  (tree_hasKey "c" sample_tree = false /\
   (exists msg, key 0%nat "c" sample_tree = Thrown msg) /\
   optkey 0%nat "c" sample_tree = Returned (None, sample_tree)).
Proof.
  split; [exact TreeDeserializer_contract |]. split.
  - split; [reflexivity |].
    exact (proj1 (key_throws_optkey_reports_absent _ _ _ _
                    TreeDeserializer_contract 0%nat "b" sample_tree) eq_refl).
  - split; [reflexivity |].
    exact (proj2 (key_throws_optkey_reports_absent _ _ _ _
                    TreeDeserializer_contract 0%nat "c" sample_tree) eq_refl).
Defined.

(** C10: over a backend that keeps the promises of the interface, and for
    a type [val] compiles for, [val(k, optional)] compiles; when the key
    is absent it throws nothing, returns the optional disengaged and
    leaves the backend as it was; when the key is present it does what
    [val] does with the cursor on the key's value, and returns the
    optional engaged with the value read. *)
Theorem val_optional_absent_key :
  forall (D : Type) (B : Deserializer D)
         (hasKey : string -> D -> bool) (at_key : string -> D -> D -> Prop),
    KeyContract hasKey at_key ->
    forall (T : Type) (ti : Deserializable D T) (T_default : T)
           (node_val : DeserializerNode -> T -> M D T),
      val ti = Compiles node_val ->
      exists object_val,
        val_optional ti T_default = Compiles object_val /\
        forall (this : DeserializerObject) (k : string) (v : option T) (d : D),
          (hasKey k d = false -> object_val this k v d = Returned (None, d)) /\
          (hasKey k d = true ->
           exists d', at_key k d d' /\
                      object_val this k v d =
                      match node_val this T_default d' with
                      | Returned (x, d'') => Returned (Some x, d'')
                      | Thrown msg => Thrown msg
                      | AssertFailed => AssertFailed
                      end).
Proof.
  intros D B hasKey at_key contract T ti T_default node_val V.
  unfold val_optional. rewrite V. eexists. split; [reflexivity |].
  intros this k v d. split; intros E.
  - destruct (key_absent hasKey at_key contract this k d E) as [_ O].
    unfold bind. now rewrite O.
  - destruct (key_present hasKey at_key contract this k d E) as [d' [A [_ [_ O]]]].
    exists d'. split; [exact A |]. unfold bind. rewrite O.
    destruct (node_val this T_default d') as [[x d'']| |]; reflexivity.
Qed.

Lemma val_optional_absent_key_witness :
  KeyContract tree_hasKey tree_at_key /\
  val (primitive (read_int Int)) = Compiles (fun _ _ => read_int Int) /\
  exists object_val,
    val_optional (primitive (read_int Int)) 0 = Compiles object_val /\
    object_val 0%nat "c" None sample_tree = Returned (None, sample_tree) /\
    object_val 0%nat "a" None sample_tree =
      Returned (Some 1, mkTree (loaded sample_tree) (JInteger 1)).
Proof.
  split; [exact TreeDeserializer_contract |]. split; [reflexivity |].
  destruct (val_optional_absent_key _ _ _ _ TreeDeserializer_contract
              Z (primitive (read_int Int)) 0 (fun _ _ => read_int Int) eq_refl)
    as [object_val [C Hf]].
  exists object_val. split; [exact C |]. split.
  - exact (proj1 (Hf 0%nat "c" None sample_tree) eq_refl).
  - injection C as <-. reflexivity.
Defined.

(** ** Writing, then reading *)

(** The reader decodes the string encoding of the specification: every
    text comes back. *)
Lemma json_read_body_escaped_char (c : ascii) (rest : string) :
  json_read_body (json_escaped_char c ++ rest) =
  cons_char (Some c) (json_read_body rest).
Proof.
  destruct c as [[] [] [] [] [] [] [] []]; reflexivity.
Qed.

Lemma json_read_string_json_quoted (str : string) :
  json_read_string (json_quoted str) = Some str.
Proof.
  unfold json_read_string, json_quoted. cbn [Ascii.eqb dquote].
  replace (Ascii.eqb dquote dquote) with true by reflexivity.
  induction str as [|c rest IH].
  - reflexivity.
  - cbn [json_escaped]. rewrite append_assoc, json_read_body_escaped_char.
    now rewrite IH.
Qed.

(** On a plain byte the serializer writes what the string encoding has. *)
Lemma escaped_char_plain `{Platform} (c : ascii) :
  plain_char c = true -> escaped_char c = json_escaped_char c.
Proof.
  unfold plain_char, escaped_char, json_escaped_char, char_value.
  destruct char_is_signed;
    destruct c as [[] [] [] [] [] [] [] []]; cbn; intros E;
    try reflexivity; discriminate E.
Qed.

Lemma quoted_plain `{Platform} (str : string) :
  plain_text str = true -> quoted str = json_quoted str.
Proof.
  unfold quoted, json_quoted. intros E. do 2 f_equal.
  induction str as [|c rest IH]; [reflexivity |].
  cbn [plain_text] in E. apply andb_true_iff in E as [Ec Er].
  cbn [escaped json_escaped]. now rewrite escaped_char_plain, IH.
Qed.

Lemma written_string `{Platform} (str : string) :
  written (WriteString str) = Some (quoted str).
Proof.
  unfold written, do_call, write_string, bind.
  rewrite prepareWriteVal_eq, writeEscapedUTF8String_eq. reflexivity.
Qed.

(** C4: the one-character text U+0001 does not come back: what the
    serializer writes for it is not the text the string encoding has for
    it, and the reader finds it malformed, whereas it reads the encoding's
    own text for U+0001 back as U+0001. *)
Theorem control_character_does_not_round_trip :
  forall `{Platform},
    written (WriteString (str1 SOH)) =
      Some (str1 dquote ++ "\u000" ++ str1 SOH ++ str1 dquote) /\
    json_read_string (str1 dquote ++ "\u000" ++ str1 SOH ++ str1 dquote) = None /\
    json_read_string (json_quoted (str1 SOH)) = Some (str1 SOH).
Proof.
  intros P. split; [| split].
  - rewrite written_string. destruct P as [[] ? ? ?]; reflexivity.
  - reflexivity.
  - reflexivity.
Qed.

(** ** What holds of the values the serializer does write *)

(** A floating-point value is written, after the separator, as the text
    the stream gives it when it is finite (a zero of either sign
    included); for any other value the call returns with the serializer
    unchanged. *)
Theorem write_floating_point_value :
  forall `{Platform} (val : spec_float) (s : JsonSerializer),
    write_double val s =
      Returned (tt, if isfinite val
                    then set_out (m_out (prepared s) ++ ostream_double val) (prepared s)
                    else s) /\
    write_float val s =
      Returned (tt, if isfinite val
                    then set_out (m_out (prepared s) ++ ostream_float val) (prepared s)
                    else s) /\
    isfinite (S754_zero false) = true /\ isfinite (S754_zero true) = true.
Proof.
  intros P val s. split; [| split; [| split; reflexivity]].
  - exact (writeFloatValue_eq val (SDouble val) s).
  - exact (writeFloatValue_eq val (SFloat val) s).
Qed.

(** On the LP64 platform: 1.0, 1.5, 0.1 and 1234567 as [double]. *)
Example write_double_lp64 :
  @written lp64 (WriteDouble (S754_finite false 4503599627370496 (-52))) = Some "1" /\
  @written lp64 (WriteDouble (S754_finite false 6755399441055744 (-52))) = Some "1.5" /\
  @written lp64 (WriteDouble (S754_finite false 7205759403792794 (-56))) = Some "0.1" /\
  @written lp64 (WriteDouble (S754_finite true 1234567 0)) = Some "-1.23457e+06".
Proof. repeat split; vm_compute; reflexivity. Qed.

Lemma write_int_eq `{Platform} (T : IntType) (val : Z) (s : JsonSerializer) :
  write_int T val s =
    Returned (tt, if written_as_is T || accepted T val
                  then set_out (m_out (prepared s) ++ decimal val) (prepared s)
                  else s).
Proof.
  destruct T; cbn [write_int written_as_is orb];
    solve [apply writeSimpleValue_eq | apply writePotentiallyBigIntegerValue_eq].
Qed.

(** An integer is written, after the separator, in decimal when its
    overload writes it as it is or [writePotentiallyBigIntegerValue]
    accepts it, which it does for every type of 32 bits or fewer and at
    both bounds; otherwise the call returns with the serializer
    unchanged. *)
Theorem write_integer_value :
  forall `{Platform} (T : IntType) (val : Z) (s : JsonSerializer),
    write_int T val s =
      Returned (tt, if written_as_is T || accepted T val
                    then set_out (m_out (prepared s) ++ decimal val) (prepared s)
                    else s) /\
    (if sizeof T <=? 4 then accepted T val = true else True) /\
    accepted LongLong 9007199254740992 = true /\
    accepted LongLong (-9007199254740992) = true /\
    accepted ULongLong 9007199254740992 = true.
Proof.
  intros P T val s. split; [apply write_int_eq |].
  split; [| repeat split].
  unfold accepted. now destruct (sizeof T <=? 4).
Qed.

Lemma accepted_magnitude `{Platform} (T : IntType) (val : Z) :
  4 < sizeof T ->
  in_range T val ->
  accepted T val = (Z.abs val <=? 9007199254740992).
Proof.
  intros Hs Hr. unfold accepted, MIN_D, MAX_D.
  replace (sizeof T <=? 4) with false by (symmetry; apply Z.leb_gt; lia).
  cbn [orb]. unfold in_range, int_min, int_max in Hr.
  destruct (is_signed T).
  - destruct (Z.abs val <=? 9007199254740992) eqn:E.
    + apply Z.leb_le in E. apply andb_true_iff. split; apply Z.leb_le; lia.
    + apply Z.leb_gt in E. apply andb_false_iff.
      destruct (Z.le_gt_cases 0 val) as [Hp | Hn].
      * right. apply Z.leb_gt. lia.
      * left. apply Z.leb_gt. lia.
  - assert (0 <= val) by lia. now rewrite Z.abs_eq.
Qed.

(** For a type wider than 32 bits and a value of that type,
    [writePotentiallyBigIntegerValue], and with it [write], writes the
    value, after the separator and in decimal, exactly when its magnitude
    is at most 9007199254740992, and otherwise returns with the
    serializer unchanged. *)
Theorem big_integer_is_written_iff_magnitude :
  forall `{Platform} (T : IntType) (val : Z) (s : JsonSerializer),
    4 < sizeof T ->
    in_range T val ->
    writePotentiallyBigIntegerValue T val s =
      Returned (tt, if Z.abs val <=? 9007199254740992
                    then set_out (m_out (prepared s) ++ decimal val) (prepared s)
                    else s) /\
    write_int T val s = writePotentiallyBigIntegerValue T val s.
Proof.
  intros P T val s Hs Hr. split.
  - rewrite writePotentiallyBigIntegerValue_eq.
    now rewrite (accepted_magnitude T val Hs Hr).
  - destruct T; cbn [sizeof] in Hs; try lia; reflexivity.
Qed.

Lemma big_integer_is_written_iff_magnitude_witness :
  let s := JsonSerializer_new "" false in
  4 < @sizeof lp64 LongLong /\
  @in_range lp64 LongLong (-9007199254740992) /\
  @writePotentiallyBigIntegerValue lp64 LongLong (-9007199254740992) s =
    Returned (tt, if Z.abs (-9007199254740992) <=? 9007199254740992
                  then set_out (m_out (prepared s) ++ decimal (-9007199254740992))
                         (prepared s)
                  else s) /\
  @write_int lp64 LongLong (-9007199254740992) s =
    @writePotentiallyBigIntegerValue lp64 LongLong (-9007199254740992) s.
Proof.
  assert (Hs : 4 < @sizeof lp64 LongLong) by (cbn; lia).
  assert (Hr : @in_range lp64 LongLong (-9007199254740992))
    by (unfold in_range; cbn; lia).
  split; [exact Hs |]. split; [exact Hr |].
  exact (@big_integer_is_written_iff_magnitude lp64 LongLong (-9007199254740992)
           (JsonSerializer_new "" false) Hs Hr).
Defined.

(** A text of plain bytes is written as the string encoding has it. *)
Theorem plain_text_is_written_as_specified :
  forall `{Platform} (str : string) (s : JsonSerializer),
    plain_text str = true ->
    writeEscapedUTF8String str s =
      Returned (tt, set_out (m_out s ++ json_quoted str) s).
Proof.
  intros P str s E. rewrite writeEscapedUTF8String_eq. now rewrite quoted_plain.
Qed.

Lemma plain_text_is_written_as_specified_witness :
  let str := String dquote ("a\b" ++ str1 LF) in
  @plain_text lp64 str = true /\
  @writeEscapedUTF8String lp64 str (JsonSerializer_new "" false) =
    Returned (tt, set_out ("" ++ json_quoted str) (JsonSerializer_new "" false)).
Proof.
  split; [reflexivity |].
  exact (@plain_text_is_written_as_specified lp64
           (String dquote ("a\b" ++ str1 LF)) (JsonSerializer_new "" false) eq_refl).
Defined.

(** ** Round trips that hold *)

Lemma json_read_integer_decimal (z : Z) : json_read_integer (decimal z) = Some z.
Proof.
  unfold json_read_integer, decimal.
  rewrite NilZero.isi.
  - cbn. now rewrite DecimalZ.of_to.
  - destruct z; cbn; try discriminate.
    intros E. injection E as E. now apply Unsigned.to_uint_nonnil in E.
  - destruct z; cbn; try discriminate.
    intros E. injection E as E. now apply Unsigned.to_uint_nonnil in E.
Qed.

(** A boolean written into a new serializer reads back as itself. *)
Theorem bool_round_trips :
  forall `{Platform} (b : bool),
    written (WriteBool b) = Some (if b then "true" else "false") /\
    json_read_bool (if b then "true" else "false") = Some b.
Proof. intros P []; split; reflexivity. Qed.

(** An integer the serializer writes reads back as itself. *)
Theorem integer_round_trips :
  forall `{Platform} (T : IntType) (val : Z),
    written_as_is T || accepted T val = true ->
    written (WriteInt T val) = Some (decimal val) /\
    json_read_integer (decimal val) = Some val.
Proof.
  intros P T val E. split; [| apply json_read_integer_decimal].
  unfold written. cbn [do_call]. rewrite write_int_eq, E. reflexivity.
Qed.

Lemma integer_round_trips_witness :
  written_as_is LongLong || @accepted lp64 LongLong (-9007199254740992) = true /\
  @written lp64 (WriteInt LongLong (-9007199254740992)) =
    Some (decimal (-9007199254740992)) /\
  json_read_integer (decimal (-9007199254740992)) = Some (-9007199254740992).
Proof.
  split; [reflexivity |].
  exact (@integer_round_trips lp64 LongLong (-9007199254740992) eq_refl).
Defined.

(** A text of plain bytes reads back as itself. *)
Theorem plain_text_round_trips :
  forall `{Platform} (str : string),
    plain_text str = true ->
    exists t, written (WriteString str) = Some t /\ json_read_string t = Some str.
Proof.
  intros P str E. exists (json_quoted str). split.
  - rewrite written_string. now rewrite quoted_plain.
  - apply json_read_string_json_quoted.
Qed.

Lemma plain_text_round_trips_witness :
  let str := String dquote ("{a\b}" ++ str1 TAB) in
  @plain_text lp64 str = true /\
  exists t, @written lp64 (WriteString str) = Some t /\
            json_read_string t = Some str.
Proof.
  split; [reflexivity |].
  exact (@plain_text_round_trips lp64 (String dquote ("{a\b}" ++ str1 TAB)) eq_refl).
Defined.

(** ** The depth counts the scopes that are open *)

Lemma do_calls_balance `{Platform} (cs : list call) : forall s s',
  0 <= m_depth s ->
  m_depth s + Z.of_nat (List.length cs) < 2 ^ 32 ->
  do_calls cs s = Returned (tt, s') ->
  m_depth s' = m_depth s + balance cs.
Proof.
  induction cs as [|c cs IH]; intros s s' H0 Hn; cbn [do_calls balance].
  - unfold ret. intros E. injection E as <-. lia.
  - unfold bind. cbn [List.length] in Hn.
    assert (Hd : 0 <= m_depth s < 2 ^ 32) by lia.
    pose proof (do_call_depth c s Hd) as Hc.
    destruct (do_call c s) as [[[] s1]| |]; try discriminate.
    destruct Hc as [Hc Hpos]. intros E.
    assert (Hs : -1 <= scopes_opened c <= 1) by (destruct c; cbn; lia).
    assert (H1 : m_depth s1 = m_depth s + scopes_opened c).
    { rewrite Hc. unfold uint32. apply Z.mod_small. lia. }
    rewrite (IH s1 s'); [lia | lia | lia | exact E].
Qed.

(** After any sequence of fewer than 2^32 calls on a new serializer that
    returns, the depth is the number of opens less the number of closes,
    and is not negative. *)
Theorem depth_counts_open_scopes :
  forall `{Platform} (cs : list call) (o : string) (pretty : bool)
         (s' : JsonSerializer),
    Z.of_nat (List.length cs) < 2 ^ 32 ->
    do_calls cs (JsonSerializer_new o pretty) = Returned (tt, s') ->
    m_depth s' = balance cs /\ 0 <= balance cs.
Proof.
  intros P cs o pretty s' Hn E.
  assert (Hb : m_depth s' = 0 + balance cs).
  { apply (do_calls_balance cs (JsonSerializer_new o pretty) s'); cbn; [lia | lia | exact E]. }
  split; [lia |].
  assert (Hr : 0 <= m_depth s' < 2 ^ 32).
  { apply (do_calls_depth_range cs (JsonSerializer_new o pretty) s'); [cbn; lia | exact E]. }
  lia.
Qed.

Lemma depth_counts_open_scopes_witness :
  let s' := mkJsonSerializer "{[" false false true 2 in
  Z.of_nat (List.length [OpenObject; OpenArray]) < 2 ^ 32 /\
  @do_calls lp64 [OpenObject; OpenArray] (JsonSerializer_new "" false) =
    Returned (tt, s') /\
  m_depth s' = balance [OpenObject; OpenArray] /\
  0 <= balance [OpenObject; OpenArray].
Proof.
  assert (Hn : Z.of_nat (List.length [OpenObject; OpenArray]) < 2 ^ 32) by (cbn; lia).
  split; [exact Hn |]. split; [vm_compute; reflexivity |].
  apply (@depth_counts_open_scopes lp64 [OpenObject; OpenArray] "" false
           (mkJsonSerializer "{[" false false true 2) Hn).
  vm_compute; reflexivity.
Defined.

(** ** Sessions never throw *)

Lemma do_calls_outcome `{Platform} (cs : list call) : forall s,
  0 <= m_depth s ->
  m_depth s + Z.of_nat (List.length cs) < 2 ^ 32 ->
  match do_calls cs s with
  | Returned (_, s') =>
      well_nested (m_depth s) cs = true /\ m_depth s' = m_depth s + balance cs
  | Thrown _ => False
  | AssertFailed => well_nested (m_depth s) cs = false
  end.
Proof.
  induction cs as [|c cs IH]; intros s H0 Hn; cbn [do_calls well_nested balance].
  - unfold ret. split; [reflexivity | lia].
  - unfold bind. cbn [List.length] in Hn.
    assert (Hd : 0 <= m_depth s < 2 ^ 32) by lia.
    pose proof (do_call_depth c s Hd) as Hc.
    destruct (do_call c s) as [[[] s1]| |].
    + destruct Hc as [Hc Hpos].
      assert (Hs : -1 <= scopes_opened c <= 1) by (destruct c; cbn; lia).
      assert (H1 : m_depth s1 = m_depth s + scopes_opened c).
      { rewrite Hc. unfold uint32. apply Z.mod_small. lia. }
      specialize (IH s1). rewrite H1 in IH.
      assert (Hle : (0 <=? m_depth s + scopes_opened c) = true) by (apply Z.leb_le; lia).
      rewrite Hle. cbn [andb].
      destruct (do_calls cs s1) as [[[] s2]| |].
      * destruct IH as [IHw IHb]; [lia | lia |]. split; [exact IHw | lia].
      * apply IH; lia.
      * apply IH; lia.
    + exact Hc.
    + destruct Hc as [Hc1 Hc2]. rewrite Hc1, Hc2. reflexivity.
Qed.

(** From a new serializer, a session of fewer than 2^32 calls never
    throws; it returns exactly when no call closes a scope that is not
    open and as many scopes are closed as are opened, and otherwise it
    fails an assertion. *)
Theorem session_returns_iff_well_nested :
  forall `{Platform} (cs : list call) (o : string) (pretty : bool),
    Z.of_nat (List.length cs) < 2 ^ 32 ->
    match session cs (JsonSerializer_new o pretty) with
    | Returned _ => well_nested 0 cs = true /\ balance cs = 0
    | Thrown _ => False
    | AssertFailed => well_nested 0 cs = false \/ balance cs <> 0
    end.
Proof.
  intros P cs o pretty Hn. unfold session, bind.
  pose proof (do_calls_outcome cs (JsonSerializer_new o pretty)) as Ho.
  cbn [m_depth JsonSerializer_new] in Ho.
  destruct (do_calls cs (JsonSerializer_new o pretty)) as [[[] s']| |].
  - destruct Ho as [Hw Hb]; [lia | lia |].
    unfold JsonSerializer_delete, assert.
    destruct (m_depth s' =? 0) eqn:E.
    + apply Z.eqb_eq in E. split; [exact Hw | lia].
    + apply Z.eqb_neq in E. right. lia.
  - apply Ho; lia.
  - left. apply Ho; lia.
Qed.

Lemma session_returns_iff_well_nested_witness :
  Z.of_nat (List.length example_document) < 2 ^ 32 /\
  match @session lp64 example_document (JsonSerializer_new "" true) with
  | Returned _ => well_nested 0 example_document = true /\ balance example_document = 0
  | Thrown _ => False
  | AssertFailed => well_nested 0 example_document = false \/ balance example_document <> 0
  end.
Proof.
  assert (Hn : Z.of_nat (List.length example_document) < 2 ^ 32) by (cbn; lia).
  split; [exact Hn |].
  exact (@session_returns_iff_well_nested lp64 example_document "" true Hn).
Defined.

(** ** Values and scopes *)

Section Compounds.
Context `{P : Platform}.

Lemma do_call_value (c : call) (s : JsonSerializer) :
  writes_value c = true ->
  do_call c s =
  Returned (tt, set_out (m_out (prepared s) ++ value_text c) (prepared s)).
Proof.
  destruct c as [| | | | b | T v | f | f | str | k | k j];
    cbn [writes_value do_call value_text]; intros E; try discriminate E.
  - apply writeSimpleValue_eq.
  - rewrite write_int_eq, E. reflexivity.
  - unfold write_float. rewrite writeFloatValue_eq, E. reflexivity.
  - unfold write_double. rewrite writeFloatValue_eq, E. reflexivity.
  - unfold write_string, bind.
    rewrite prepareWriteVal_eq, writeEscapedUTF8String_eq. reflexivity.
Qed.

Lemma uint32_small z : 0 <= z < 2 ^ 32 -> uint32 z = z.
Proof. intros Hz. unfold uint32. now apply Z.mod_small. Qed.

Lemma do_calls_app (cs1 cs2 : list call) (s : JsonSerializer) :
  do_calls (cs1 ++ cs2) s = (do_calls cs1 ;; do_calls cs2) s.
Proof.
  revert s. induction cs1 as [|c cs1 IH]; intros s; cbn [do_calls List.app].
  - reflexivity.
  - unfold bind. destruct (do_call c s) as [[[] s1]| |]; try reflexivity.
    rewrite IH. reflexivity.
Qed.

End Compounds.

Lemma openArray_eq `{Platform} (s : JsonSerializer) :
  openArray s =
  Returned (tt, mkJsonSerializer (m_out s ++ separator_text s ++ "[") (m_pretty s)
                  false true (uint32 (m_depth s + 1))).
Proof.
  unfold openArray, bind. rewrite open_eq. unfold modify, set_arrayJustOpen, prepared.
  cbn [m_out m_pretty m_hasValue m_arrayJustOpen m_depth].
  now rewrite append_assoc.
Qed.

Lemma openObject_eq `{Platform} (s : JsonSerializer) :
  openObject s =
  Returned (tt, mkJsonSerializer (m_out s ++ separator_text s ++ "{") (m_pretty s)
                  false (if m_hasValue s then m_arrayJustOpen s else false)
                  (uint32 (m_depth s + 1))).
Proof.
  unfold openObject. rewrite open_eq. unfold prepared.
  cbn [m_out m_pretty m_hasValue m_arrayJustOpen m_depth].
  now rewrite append_assoc.
Qed.

(** ** Documents *)

Section Documents.
Context `{P : Platform}.

Lemma height_nonneg (x : doc) : 0 <= height x.
Proof.
  destruct x as [c | elements | members]; cbn [height]; [lia | |].
  - induction elements as [|e l IH]; cbn [fold_right]; lia.
  - induction members as [|m l IH]; cbn [fold_right]; lia.
Qed.

Lemma is_written_leaf (c : call) : is_written (Leaf c).
Proof.
  intros s E Ha H0 H1. cbn [calls_of do_calls writes_values] in *.
  unfold bind. rewrite (do_call_value c s E). unfold ret, after_document, prepared, set_out.
  cbn [m_out m_pretty m_hasValue m_arrayJustOpen m_depth render].
  replace (if m_hasValue s then m_arrayJustOpen s else false) with false
    by (destruct (m_hasValue s), (m_arrayJustOpen s); try reflexivity; discriminate Ha).
  now rewrite append_assoc.
Qed.

(** The elements of an array after the first. *)
Lemma more_elements (l : list doc) :
  Forall is_written l ->
  forall o p d,
    forallb writes_values l = true ->
    0 <= d -> d + tallest (fun e => e) l < 2 ^ 32 ->
    do_calls (flat_map calls_of l) (mkJsonSerializer o p true false d) =
    Returned (tt, mkJsonSerializer (o ++ more_items p d (map (render p d) l))
                    p true false d).
Proof.
  induction 1 as [|e l He Hl IH]; intros o p d E H0 H1;
    cbn [flat_map do_calls map more_items].
  - unfold ret. now rewrite append_nil_r.
  - cbn [forallb] in E. apply andb_true_iff in E as [Ee Er].
    unfold tallest in H1. cbn [fold_right] in H1. fold (tallest (fun e => e) l) in H1.
    rewrite do_calls_app. unfold bind.
    rewrite (He (mkJsonSerializer o p true false d) Ee eq_refl H0); [| cbn; lia].
    unfold after_document, separator_text, newline_text.
    cbn [m_out m_pretty m_hasValue m_arrayJustOpen m_depth].
    rewrite IH; [| exact Er | exact H0 | lia].
    unfold line_break. do 2 f_equal. f_equal. now rewrite !append_assoc.
Qed.

(** The members of an object, after the first when [h] is set. *)
Lemma more_members (l : list (string * doc)) :
  Forall (fun m => is_written (snd m)) l ->
  forall o p d,
    forallb (fun m => writes_values (snd m)) l = true ->
    0 <= d -> d + tallest snd l < 2 ^ 32 ->
    do_calls (flat_map (fun m => PushKey (fst m) :: calls_of (snd m)) l)
      (mkJsonSerializer o p true false d) =
    Returned (tt, mkJsonSerializer
                    (o ++ more_items p d
                            (map (fun m => quoted (fst m) ++ ":" ++ render p d (snd m)) l))
                    p true false d).
Proof.
  induction 1 as [|[k v] l Hv Hl IH]; intros o p d E H0 H1;
    cbn [flat_map do_calls map more_items].
  - unfold ret. now rewrite append_nil_r.
  - cbn [forallb snd fst] in *. apply andb_true_iff in E as [Ee Er].
    unfold tallest in H1. cbn [fold_right snd] in H1. fold (tallest snd l) in H1.
    cbn [List.app do_calls do_call]. unfold bind at 1. rewrite pushKey_eq.
    cbn [m_out m_pretty m_hasValue m_arrayJustOpen m_depth].
    rewrite do_calls_app. unfold bind.
    rewrite (Hv _ Ee); [| reflexivity | cbn; lia | cbn; lia].
    unfold after_document, separator_text, newline_text.
    cbn [m_out m_pretty m_hasValue m_arrayJustOpen m_depth].
    rewrite IH; [| exact Er | exact H0 | lia].
    unfold line_break. do 2 f_equal. f_equal.
    rewrite !append_assoc, ?append_nil_r. cbn [append]. now rewrite ?append_assoc.
Qed.

End Documents.

Section WholeDocuments.
Context `{P : Platform}.

Lemma tallest_nonneg {A} (doc_of : A -> doc) (l : list A) : 0 <= tallest doc_of l.
Proof. unfold tallest. induction l as [|m l IH]; cbn [fold_right]; lia. Qed.

Lemma close_scope (c : ascii) o p (h a : bool) d :
  0 <= d -> d + 1 < 2 ^ 32 ->
  close c (mkJsonSerializer o p h a (d + 1)) =
  Returned (tt, mkJsonSerializer
                  (o ++ (if h then line_break p d else "") ++ str1 c) p true a d).
Proof.
  intros H0 H1. rewrite close_eq.
  cbn [m_depth m_hasValue m_out m_pretty m_arrayJustOpen].
  replace (d + 1 =? 0) with false by (symmetry; apply Z.eqb_neq; lia).
  cbn zeta. unfold set_depth, newline_text.
  cbn [m_depth m_hasValue m_out m_pretty m_arrayJustOpen].
  replace (d + 1 - 1) with d by lia.
  rewrite uint32_small by lia. reflexivity.
Qed.

Lemma is_written_array (elements : list doc) :
  Forall is_written elements -> is_written (Arr elements).
Proof.
  intros Hall s E Ha H0 H1. cbn [calls_of writes_values height] in *.
  fold (tallest (fun e => e) elements) in H1.
  pose proof (tallest_nonneg (fun e => e) elements) as Ht.
  cbn [do_calls do_call]. unfold bind at 1. rewrite openArray_eq.
  rewrite (uint32_small (m_depth s + 1)) by lia.
  rewrite do_calls_app. unfold bind, after_document. cbn [render].
  destruct Hall as [|e l He Hl]; cbn [flat_map do_calls map items].
  - unfold ret. cbn [do_call]. unfold bind, closeArray, bind.
    rewrite close_scope by lia. unfold modify, set_arrayJustOpen, ret.
    cbn [m_depth m_hasValue m_out m_pretty m_arrayJustOpen].
    do 2 f_equal. f_equal. now rewrite !append_assoc.
  - cbn [forallb] in E. apply andb_true_iff in E as [Ee Er].
    unfold tallest in H1. cbn [fold_right] in H1. fold (tallest (fun e => e) l) in H1.
    pose proof (height_nonneg e) as Hh.
    rewrite do_calls_app. unfold bind.
    rewrite (He _ Ee); [| reflexivity | cbn; lia | cbn; lia].
    unfold after_document, separator_text, newline_text.
    cbn [m_out m_pretty m_hasValue m_arrayJustOpen m_depth].
    rewrite (more_elements l Hl); [| exact Er | lia | lia].
    cbn [do_call]. unfold closeArray, bind.
    rewrite close_scope by lia. unfold modify, set_arrayJustOpen, ret.
    cbn [m_depth m_hasValue m_out m_pretty m_arrayJustOpen].
    replace (m_depth s + 1 - 1) with (m_depth s) by lia.
    unfold line_break. do 2 f_equal. f_equal. now rewrite !append_assoc.
Qed.

Lemma is_written_object (members : list (string * doc)) :
  Forall (fun m => is_written (snd m)) members -> is_written (Obj members).
Proof.
  intros Hall s E Ha H0 H1. cbn [calls_of writes_values height] in *.
  fold (tallest snd members) in H1.
  pose proof (tallest_nonneg snd members) as Ht.
  cbn [do_calls do_call]. unfold bind at 1. rewrite openObject_eq.
  rewrite (uint32_small (m_depth s + 1)) by lia.
  replace (if m_hasValue s then m_arrayJustOpen s else false) with false
    by (destruct (m_hasValue s), (m_arrayJustOpen s); try reflexivity; discriminate Ha).
  rewrite do_calls_app. unfold bind, after_document. cbn [render].
  destruct Hall as [|[k v] l Hv Hl]; cbn [flat_map do_calls map items].
  - unfold ret. cbn [do_call]. unfold bind, closeObject.
    rewrite close_scope by lia.
    do 2 f_equal. f_equal. now rewrite !append_assoc.
  - cbn [forallb snd fst] in *. apply andb_true_iff in E as [Ee Er].
    unfold tallest in H1. cbn [fold_right snd] in H1. fold (tallest snd l) in H1.
    pose proof (height_nonneg v) as Hh.
    cbn [List.app do_calls do_call]. unfold bind at 1. rewrite pushKey_eq.
    cbn [m_out m_pretty m_hasValue m_arrayJustOpen m_depth].
    rewrite do_calls_app. unfold bind.
    rewrite (Hv _ Ee); [| reflexivity | cbn; lia | cbn; lia].
    unfold after_document, separator_text, newline_text.
    cbn [m_out m_pretty m_hasValue m_arrayJustOpen m_depth].
    rewrite (more_members l Hl); [| exact Er | lia | lia].
    cbn [do_call]. unfold closeObject.
    rewrite close_scope by lia.
    replace (m_depth s + 1 - 1) with (m_depth s) by lia.
    unfold line_break. do 2 f_equal. f_equal.
    rewrite !append_assoc, ?append_nil_r. cbn [append]. now rewrite ?append_assoc.
Qed.

End WholeDocuments.

(** A document is written as its text: for every document whose leaves
    are calls that write a value, from every state in which the array flag
    is not set together with the value flag and the depth leaves room for
    the document's nested scopes, the calls of the document return and
    append the separator and the document's text: values, [[]...[]] and
    [{]...[}] with commas between elements and between members, a colon
    after each escaped key, and in pretty mode a line of its own, indented
    two spaces per level, for each element, member and closing bracket of
    a scope that is not empty.  The scope then holds a value, and the
    depth is as before. *)
Theorem document_is_written :
  forall `{Platform} (x : doc) (s : JsonSerializer),
    writes_values x = true ->
    m_hasValue s && m_arrayJustOpen s = false ->
    0 <= m_depth s ->
    m_depth s + height x < 2 ^ 32 ->
    do_calls (calls_of x) s =
    Returned (tt, mkJsonSerializer
                    (m_out s ++ separator_text s ++ render (m_pretty s) (m_depth s) x)
                    (m_pretty s) true false (m_depth s)).
Proof.
  intros P x.
  apply (doc_induction is_written is_written_leaf is_written_array is_written_object x).
Qed.

Lemma document_is_written_witness :
  let s := JsonSerializer_new "" true in
  @writes_values lp64 sample_doc = true /\
  m_hasValue s && m_arrayJustOpen s = false /\
  0 <= m_depth s /\
  m_depth s + height sample_doc < 2 ^ 32 /\
  @do_calls lp64 (calls_of sample_doc) s =
  Returned (tt, mkJsonSerializer
                  (m_out s ++ separator_text s
                     ++ @render lp64 (m_pretty s) (m_depth s) sample_doc)
                  (m_pretty s) true false (m_depth s)).
Proof.
  assert (H0 : 0 <= m_depth (JsonSerializer_new "" true)) by (cbn; lia).
  assert (H1 : m_depth (JsonSerializer_new "" true) + height sample_doc < 2 ^ 32)
    by (vm_compute; reflexivity).
  split; [reflexivity |]. split; [reflexivity |].
  split; [exact H0 |]. split; [exact H1 |].
  exact (@document_is_written lp64 sample_doc (JsonSerializer_new "" true)
           eq_refl eq_refl H0 H1).
Defined.

(** ** Pretty mode is compact mode with layout *)

Lemma strip_layout_app (a c : string) : forall b,
  strip_layout b (a ++ c) = strip_layout b a ++ strip_layout (layout_after b a) c.
Proof.
  induction a as [|x a IH]; intros b; cbn [append strip_layout layout_after].
  - reflexivity.
  - destruct (Ascii.eqb x LF); [apply IH |].
    destruct (b && Ascii.eqb x " "); [apply IH |].
    cbn [append]. now rewrite IH.
Qed.

Lemma layout_after_app (a c : string) : forall b,
  layout_after b (a ++ c) = layout_after (layout_after b a) c.
Proof.
  induction a as [|x a IH]; intros b; cbn [append layout_after].
  - reflexivity.
  - destruct (Ascii.eqb x LF); [apply IH |].
    destruct (b && Ascii.eqb x " "); apply IH.
Qed.

Lemma same_but_layout_app (tp tc up uc : string) :
  same_but_layout tp tc -> same_but_layout up uc ->
  same_but_layout (tp ++ up) (tc ++ uc).
Proof.
  intros Ht Hu b. rewrite strip_layout_app, layout_after_app.
  destruct (Ht b) as [-> ->]. destruct (Hu false) as [-> ->]. now split.
Qed.

Lemma no_LF_same (t : string) :
  no_LF t = true -> strip_layout false t = t /\ layout_after false t = false.
Proof.
  induction t as [|c t IH]; cbn [no_LF strip_layout layout_after andb]; intros E.
  - now split.
  - apply andb_true_iff in E as [Ec Et]. apply negb_true_iff in Ec. rewrite Ec.
    destruct (IH Et) as [-> ->]. now split.
Qed.

Lemma solid_same (t : string) : solid t = true -> same_but_layout t t.
Proof.
  destruct t as [|c t]; [discriminate |].
  cbn [solid no_LF]. intros E b.
  apply andb_true_iff in E as [Es E]. apply andb_true_iff in E as [Ec Et].
  apply negb_true_iff in Es, Ec.
  cbn [strip_layout layout_after]. rewrite Ec, Es, andb_false_r.
  destruct (no_LF_same t Et) as [-> ->]. now split.
Qed.

Lemma strip_indent (n : nat) :
  strip_layout true (indent n) = "" /\ layout_after true (indent n) = true.
Proof. induction n as [|n IH]; [now split | exact IH]. Qed.

(** A line break of pretty mode is layout; of compact mode, nothing. *)
Lemma strip_line_break (d : Z) (b : bool) (up uc : string) :
  same_but_layout up uc ->
  strip_layout b (line_break true d ++ up) = line_break false d ++ uc /\
  layout_after b (line_break true d ++ up) = false.
Proof.
  intros Hu. unfold line_break. cbn [append strip_layout layout_after].
  replace (Ascii.eqb LF LF) with true by reflexivity.
  rewrite strip_layout_app, layout_after_app.
  destruct (strip_indent (Z.to_nat d)) as [-> ->].
  destruct (Hu true) as [-> ->]. now split.
Qed.

Lemma same_line_break (d : Z) (up uc : string) :
  same_but_layout up uc ->
  same_but_layout (line_break true d ++ up) (line_break false d ++ uc).
Proof. intros Hu b. now apply strip_line_break. Qed.

Lemma same_cons (c : ascii) (tp tc : string) :
  Ascii.eqb c LF = false -> Ascii.eqb c " " = false ->
  same_but_layout tp tc -> same_but_layout (String c tp) (String c tc).
Proof.
  intros El Es Ht b. cbn [strip_layout layout_after].
  rewrite El, Es, andb_false_r. destruct (Ht false) as [-> ->]. now split.
Qed.

Lemma more_items_same (d : Z) (tps tcs : list string) :
  Forall2 same_but_layout tps tcs ->
  forall up uc,
    same_but_layout up uc ->
    same_but_layout (more_items true d tps ++ up) (more_items false d tcs ++ uc).
Proof.
  induction 1 as [|tp tc tps tcs Ht Hl IH]; intros up uc Hu; cbn [more_items].
  - exact Hu.
  - cbn [append]. apply same_cons; [reflexivity | reflexivity |].
    rewrite !append_assoc. apply same_line_break.
    apply same_but_layout_app; [exact Ht | now apply IH].
Qed.

Lemma bracketed_same (d : Z) (o c : string) (tps tcs : list string) :
  solid o = true -> solid c = true ->
  Forall2 same_but_layout tps tcs ->
  same_but_layout (o ++ items true d tps ++ c) (o ++ items false d tcs ++ c).
Proof.
  intros Ho Hc Hall.
  apply same_but_layout_app; [now apply solid_same |].
  destruct Hall as [|tp tc tps tcs Ht Hl]; cbn [items].
  - now apply solid_same.
  - rewrite !append_assoc. apply same_line_break.
    apply same_but_layout_app; [exact Ht |].
    apply more_items_same; [exact Hl |].
    apply same_line_break. now apply solid_same.
Qed.

Lemma no_LF_app (a c : string) :
  no_LF a = true -> no_LF c = true -> no_LF (a ++ c) = true.
Proof.
  induction a as [|x a IH]; cbn [append no_LF]; intros Ea Ec; [exact Ec |].
  apply andb_true_iff in Ea as [Ex Ea]. rewrite Ex. now apply IH.
Qed.

Lemma no_LF_escaped_char `{Platform} (c : ascii) : no_LF (escaped_char c) = true.
Proof.
  unfold escaped_char, char_value.
  destruct char_is_signed;
    destruct c as [[] [] [] [] [] [] [] []]; reflexivity.
Qed.

Lemma solid_quoted `{Platform} (str : string) : solid (quoted str) = true.
Proof.
  unfold quoted, solid. cbn [no_LF]. replace (Ascii.eqb dquote " ") with false by reflexivity.
  replace (Ascii.eqb dquote LF) with false by reflexivity. cbn [negb andb].
  apply no_LF_app; [| reflexivity].
  induction str as [|c str IH]; [reflexivity |].
  cbn [escaped]. apply no_LF_app; [apply no_LF_escaped_char | exact IH].
Qed.

Lemma no_LF_digits (d : Decimal.uint) : no_LF (NilEmpty.string_of_uint d) = true.
Proof. induction d; cbn [NilEmpty.string_of_uint no_LF]; try reflexivity; exact IHd. Qed.

Lemma solid_digits (d : Decimal.uint) :
  d <> Decimal.Nil -> solid (NilEmpty.string_of_uint d) = true.
Proof.
  destruct d; intros Hd; try (now destruct Hd);
    cbn [NilEmpty.string_of_uint solid no_LF]; apply no_LF_digits.
Qed.

Lemma solid_decimal (z : Z) : solid (decimal z) = true.
Proof.
  unfold decimal. destruct z as [|p|p]; cbn [Z.to_int NilZero.string_of_int].
  - reflexivity.
  - pose proof (Unsigned.to_uint_nonnil p) as Hp.
    unfold NilZero.string_of_uint.
    destruct (Pos.to_uint p) eqn:E; try (now destruct Hp);
      rewrite <- E; apply solid_digits; now rewrite E.
  - unfold NilZero.string_of_uint. cbn [solid no_LF].
    replace (Ascii.eqb "-" " ") with false by reflexivity.
    replace (Ascii.eqb "-" LF) with false by reflexivity. cbn [negb andb].
    destruct (Pos.to_uint p); try reflexivity; apply no_LF_digits.
Qed.

Section PrettyAndCompact.
Context `{P : Platform}.

Lemma plain_leaves_write (x : doc) : plain_leaves x = true -> writes_values x = true.
Proof.
  apply (doc_induction (fun x => plain_leaves x = true -> writes_values x = true)).
  - intros c. destruct c; cbn [plain_leaves writes_values writes_value];
      intros E; try discriminate E; try reflexivity; exact E.
  - intros l Hl. cbn [plain_leaves writes_values]. induction Hl as [|e l He Hl IH];
      cbn [forallb]; [reflexivity |].
    intros E. apply andb_true_iff in E as [Ee Er]. now rewrite He, IH.
  - intros l Hl. cbn [plain_leaves writes_values]. induction Hl as [|m l Hm Hl IH];
      cbn [forallb]; [reflexivity |].
    intros E. apply andb_true_iff in E as [Ee Er]. now rewrite Hm, IH.
Qed.

Lemma render_same (x : doc) :
  plain_leaves x = true ->
  forall d, same_but_layout (render true d x) (render false d x).
Proof.
  apply (doc_induction (fun x => plain_leaves x = true ->
           forall d, same_but_layout (render true d x) (render false d x))).
  - intros c E d. cbn [render]. apply solid_same.
    destruct c as [| | | | b | T v | f | f | str | k | k j];
      cbn [plain_leaves] in E; try discriminate E; cbn [value_text].
    + now destruct b.
    + apply solid_decimal.
    + apply solid_quoted.
  - intros l Hl E d. cbn [plain_leaves render] in *.
    apply bracketed_same; [reflexivity | reflexivity |].
    induction Hl as [|e l He Hl IH]; cbn [map]; [constructor |].
    cbn [forallb] in E. apply andb_true_iff in E as [Ee Er].
    constructor; [now apply He | now apply IH].
  - intros l Hl E d. cbn [plain_leaves render] in *.
    apply bracketed_same; [reflexivity | reflexivity |].
    induction Hl as [|m l Hm Hl IH]; cbn [map]; [constructor |].
    cbn [forallb] in E. apply andb_true_iff in E as [Ee Er].
    constructor; [| now apply IH].
    apply same_but_layout_app; [apply solid_same, solid_quoted |].
    cbn [append]. apply same_cons; [reflexivity | reflexivity |]. now apply Hm.
Qed.

End PrettyAndCompact.

(** Pretty mode writes what compact mode writes, with layout: for every
    document whose leaves are booleans, integers and texts, the calls of
    the document return on a new pretty serializer and on a new compact
    one, and the text the pretty one appends, with every line feed and the
    spaces that follow it dropped, is the text the compact one appends. *)
Theorem pretty_is_compact_with_layout :
  forall `{Platform} (x : doc) (o : string),
    plain_leaves x = true ->
    height x < 2 ^ 32 ->
    exists tp tc,
      do_calls (calls_of x) (JsonSerializer_new o true) =
        Returned (tt, mkJsonSerializer (o ++ tp) true true false 0) /\
      do_calls (calls_of x) (JsonSerializer_new o false) =
        Returned (tt, mkJsonSerializer (o ++ tc) false true false 0) /\
      strip_layout false tp = tc.
Proof.
  intros P x o E Hh.
  exists (render true 0 x), (render false 0 x).
  pose proof (plain_leaves_write x E) as Ew.
  split; [| split].
  - apply (doc_induction is_written is_written_leaf is_written_array
             is_written_object x (JsonSerializer_new o true) Ew eq_refl);
      cbn [m_depth JsonSerializer_new]; lia.
  - apply (doc_induction is_written is_written_leaf is_written_array
             is_written_object x (JsonSerializer_new o false) Ew eq_refl);
      cbn [m_depth JsonSerializer_new]; lia.
  - apply (render_same x E 0 false).
Qed.

Lemma pretty_is_compact_with_layout_witness :
  @plain_leaves lp64 sample_doc = true /\
  height sample_doc < 2 ^ 32 /\
  exists tp tc,
    @do_calls lp64 (calls_of sample_doc) (JsonSerializer_new "" true) =
      Returned (tt, mkJsonSerializer ("" ++ tp) true true false 0) /\
    @do_calls lp64 (calls_of sample_doc) (JsonSerializer_new "" false) =
      Returned (tt, mkJsonSerializer ("" ++ tc) false true false 0) /\
    strip_layout false tp = tc.
Proof.
  assert (Hh : height sample_doc < 2 ^ 32) by (vm_compute; reflexivity).
  split; [reflexivity |]. split; [exact Hh |].
  exact (@pretty_is_compact_with_layout lp64 sample_doc "" eq_refl Hh).
Defined.

(** ** Escaping loses nothing *)

Lemma unescaped_escaped_char `{Platform} (c : ascii) (rest : string) :
  unescaped (escaped_char c ++ rest) = cons_char (Some c) (unescaped rest).
Proof.
  unfold escaped_char, char_value.
  destruct char_is_signed;
    destruct c as [[] [] [] [] [] [] [] []]; reflexivity.
Qed.

Lemma unescaped_escaped `{Platform} (str : string) :
  unescaped (escaped str) = Some str.
Proof.
  induction str as [|c str IH]; [reflexivity |].
  cbn [escaped]. rewrite unescaped_escaped_char, IH. reflexivity.
Qed.

Lemma append_inv_head (a b c : string) : a ++ b = a ++ c -> b = c.
Proof.
  induction a as [|x a IH]; cbn [append]; intros E; [exact E |].
  injection E as E. now apply IH.
Qed.

Lemma length_append (a b : string) :
  String.length (a ++ b) = (String.length a + String.length b)%nat.
Proof. induction a as [|x a IH]; cbn [append String.length]; [reflexivity | now rewrite IH]. Qed.

Lemma append_inv_tail (c : string) : forall a b, a ++ c = b ++ c -> a = b.
Proof.
  induction a as [|x a IH]; intros [|y b] E; cbn [append] in E.
  - reflexivity.
  - apply (f_equal String.length) in E. cbn [String.length] in E.
    rewrite length_append in E. lia.
  - apply (f_equal String.length) in E. cbn [String.length] in E.
    rewrite length_append in E. lia.
  - injection E as -> E. f_equal. now apply IH.
Qed.

(** Two different strings are never written as the same text: whatever
    the state, [writeEscapedUTF8String] leaves different streams for
    them. *)
Theorem writeEscapedUTF8String_injective :
  forall `{Platform} (a b : string) (s : JsonSerializer),
    a <> b ->
    writeEscapedUTF8String a s <> writeEscapedUTF8String b s.
Proof.
  intros P a b s Hab E. apply Hab.
  rewrite !writeEscapedUTF8String_eq in E. injection E as E.
  apply append_inv_head in E. unfold quoted in E. injection E as E.
  apply append_inv_tail in E.
  apply (f_equal unescaped) in E. rewrite !unescaped_escaped in E.
  now injection E.
Qed.

Lemma writeEscapedUTF8String_injective_witness :
  str1 SOH <> str1 (chr 2) /\
  @writeEscapedUTF8String lp64 (str1 SOH) (JsonSerializer_new "" false) <>
  @writeEscapedUTF8String lp64 (str1 (chr 2)) (JsonSerializer_new "" false).
Proof.
  assert (Hab : str1 SOH <> str1 (chr 2)) by discriminate.
  split; [exact Hab |].
  exact (@writeEscapedUTF8String_injective lp64 (str1 SOH) (str1 (chr 2))
           (JsonSerializer_new "" false) Hab).
Defined.

(** ** Type tags *)

(** A tag of one kind of value matches, among the tags, itself only; it
    matches the mask [Boolean] exactly when it is [True] or [False], and
    the mask [Number] exactly when it is [Integer] or [Float]. *)
Theorem type_is_matches_its_kind :
  forall t : NodeType.Value,
    is_tag t = true ->
    (forall u, is_tag u = true -> (NodeType.is_ t u = true <-> t = u)) /\
    (NodeType.is_ t NodeType.Boolean = true <->
       t = NodeType.True \/ t = NodeType.False) /\
    (NodeType.is_ t NodeType.Number = true <->
       t = NodeType.Integer \/ t = NodeType.Float).
Proof.
  intros t Ht. split; [| split].
  - intros u Hu.
    destruct t; try discriminate Ht; destruct u; try discriminate Hu;
      split; intros E; try reflexivity; try discriminate E.
  - destruct t; try discriminate Ht; split; intros E;
      try (left; reflexivity); try (right; reflexivity); try reflexivity;
      try discriminate E; destruct E as [E | E]; discriminate E.
  - destruct t; try discriminate Ht; split; intros E;
      try (left; reflexivity); try (right; reflexivity); try reflexivity;
      try discriminate E; destruct E as [E | E]; discriminate E.
Qed.

Lemma type_is_matches_its_kind_witness :
  is_tag NodeType.Integer = true /\
  (forall u, is_tag u = true ->
             (NodeType.is_ NodeType.Integer u = true <-> NodeType.Integer = u)) /\
  (NodeType.is_ NodeType.Integer NodeType.Boolean = true <->
     NodeType.Integer = NodeType.True \/ NodeType.Integer = NodeType.False) /\
  (NodeType.is_ NodeType.Integer NodeType.Number = true <->
     NodeType.Integer = NodeType.Integer \/ NodeType.Integer = NodeType.Float).
Proof.
  split; [reflexivity |].
  exact (type_is_matches_its_kind NodeType.Integer eq_refl).
Defined.

(** ** Values under a key *)

(** Over a backend that keeps the promises of the interface, and for a
    type [val] compiles for, [val(k, v)] compiles; when the key is absent
    it throws, and the value's deserialization is not run; when the key is
    present it does what [val] does with the cursor on the key's value. *)
Theorem val_key_requires_key :
  forall (D : Type) (B : Deserializer D)
         (hasKey : string -> D -> bool) (at_key : string -> D -> D -> Prop),
    KeyContract hasKey at_key ->
    forall (T : Type) (ti : Deserializable D T)
           (node_val : DeserializerNode -> T -> M D T),
      val ti = Compiles node_val ->
      exists object_val,
        val_key ti = Compiles object_val /\
        forall (this : DeserializerObject) (k : string) (v : T) (d : D),
          (hasKey k d = false -> exists msg, object_val this k v d = Thrown msg) /\
          (hasKey k d = true ->
           exists d', at_key k d d' /\ object_val this k v d = node_val this v d').
Proof.
  intros D B hasKey at_key contract T ti node_val V.
  unfold val_key. rewrite V. eexists. split; [reflexivity |].
  intros this k v d. split; intros E.
  - destruct (key_absent hasKey at_key contract this k d E) as [[msg K] _].
    exists msg. unfold bind. now rewrite K.
  - destruct (key_present hasKey at_key contract this k d E) as [d' [A [_ [K _]]]].
    exists d'. split; [exact A |]. unfold bind. now rewrite K.
Qed.

Lemma val_key_requires_key_witness :
  KeyContract tree_hasKey tree_at_key /\
  val (primitive (read_int Int)) = Compiles (fun _ _ => read_int Int) /\
  exists object_val,
    val_key (primitive (read_int Int)) = Compiles object_val /\
    (exists msg, object_val 0%nat "c" 5 sample_tree = Thrown msg) /\
    object_val 0%nat "a" 5 sample_tree =
      Returned (1, mkTree (loaded sample_tree) (JInteger 1)).
Proof.
  split; [exact TreeDeserializer_contract |]. split; [reflexivity |].
  destruct (val_key_requires_key _ _ _ _ TreeDeserializer_contract
              Z (primitive (read_int Int)) (fun _ _ => read_int Int) eq_refl)
    as [object_val [C Hf]].
  exists object_val. split; [exact C |]. split.
  - exact (proj1 (Hf 0%nat "c" 5 sample_tree) eq_refl).
  - injection C as <-. reflexivity.
Defined.

(** Over a backend that keeps the promises of the interface, and for a
    type [val] compiles for, [optval(k, v)] compiles; when the key is
    absent it throws nothing and leaves both [v] and the backend as they
    were; when the key is present it does what [val] does with the cursor
    on the key's value. *)
Theorem optval_keeps_value_without_key :
  forall (D : Type) (B : Deserializer D)
         (hasKey : string -> D -> bool) (at_key : string -> D -> D -> Prop),
    KeyContract hasKey at_key ->
    forall (T : Type) (ti : Deserializable D T)
           (node_val : DeserializerNode -> T -> M D T),
      val ti = Compiles node_val ->
      exists object_val,
        optval ti = Compiles object_val /\
        forall (this : DeserializerObject) (k : string) (v : T) (d : D),
          (hasKey k d = false -> object_val this k v d = Returned (v, d)) /\
          (hasKey k d = true ->
           exists d', at_key k d d' /\ object_val this k v d = node_val this v d').
Proof.
  intros D B hasKey at_key contract T ti node_val V.
  unfold optval. rewrite V. eexists. split; [reflexivity |].
  intros this k v d. split; intros E.
  - destruct (key_absent hasKey at_key contract this k d E) as [_ O].
    unfold bind. now rewrite O.
  - destruct (key_present hasKey at_key contract this k d E) as [d' [A [_ [_ O]]]].
    exists d'. split; [exact A |]. unfold bind. now rewrite O.
Qed.

Lemma optval_keeps_value_without_key_witness :
  KeyContract tree_hasKey tree_at_key /\
  val (primitive (read_int Int)) = Compiles (fun _ _ => read_int Int) /\
  exists object_val,
    optval (primitive (read_int Int)) = Compiles object_val /\
    object_val 0%nat "c" 5 sample_tree = Returned (5, sample_tree) /\
    object_val 0%nat "a" 5 sample_tree =
      Returned (1, mkTree (loaded sample_tree) (JInteger 1)).
Proof.
  split; [exact TreeDeserializer_contract |]. split; [reflexivity |].
  destruct (optval_keeps_value_without_key _ _ _ _ TreeDeserializer_contract
              Z (primitive (read_int Int)) (fun _ _ => read_int Int) eq_refl)
    as [object_val [C Hf]].
  exists object_val. split; [exact C |]. split.
  - exact (proj1 (Hf 0%nat "c" 5 sample_tree) eq_refl).
  - injection C as <-. reflexivity.
Defined.
